(** * Numba CUDA kernels of the HighPerfComputing labs

    A shallow embedding of

    - [Labs/pygpu-extra-end2end.ipynb]: the brute-force nearest-neighbour
      search ([_warp_min_reduce_idx_unrolled], [_block_get_nearest_brute],
      [_global_get_nearest_brute], [numba_cuda_solve]);
    - [Labs/Lab6-Writing_CUDA_Kernels.ipynb]: the two matrix-multiplication
      kernels ([matmul], [fast_matmul]) and their launch cells.

    Indices are binary naturals ([N]); single-precision values are
    [spec_float]s compared with the IEEE-754 comparison of the standard
    library ([SFltb]); device arrays are shapes together with a cell
    function. *)

From Stdlib Require Import NArith ZArith List Bool Lia.
From Stdlib Require Import Floats.SpecFloat.
Import ListNotations.

Local Open Scope N_scope.

Ltac Zify.zify_post_hook ::= Z.to_euclidean_division_equations.

(* ================================================================= *)
(** ** Single-precision values *)

Module F32.

(** A [float32] register. *)
Definition f32 := spec_float.

Definition prec : Z := 24.
Definition emax : Z := 128.

(** Python's [a < b] and [a > b] on floats: false as soon as one side
    is a NaN. *)
Definition lt (a b : f32) : bool := SFltb a b.
Definition gt (a b : f32) : bool := SFltb b a.

Definition is_nan (a : f32) : bool :=
  match a with S754_nan => true | _ => false end.

Definition add : f32 -> f32 -> f32 := SFadd prec emax.
Definition sub : f32 -> f32 -> f32 := SFsub prec emax.
Definition mul : f32 -> f32 -> f32 := SFmul prec emax.

(** [float32(0.5)], [float32(2.0)], [float32(1e11)], [float32(1e30)]
    and [0.0], [1.0] as mantissa/exponent pairs. *)
Definition half : f32 := S754_finite false 8388608 (-24).
Definition two : f32 := S754_finite false 8388608 (-22).
Definition one : f32 := S754_finite false 8388608 (-23).
Definition zero : f32 := S754_zero false.
Definition seed_1e11 : f32 := S754_finite false 12207031 13.
Definition seed_1e30 : f32 := S754_finite false 13234890 76.

(** [a <= b] for values that are not NaN: [b] is not below [a]. *)
Definition le (a b : f32) : Prop := lt b a = false.

End F32.

Import F32.

(* ================================================================= *)
(** ** Warp-level reduction *)

Definition WARP_SIZE : N := 32.

(** The registers [(val, idx)] of the 32 lanes of one warp, by lane id. *)
Definition warp_regs := N -> f32 * N.

(** [cuda.shfl_down_sync(mask, var, delta)] with the full mask
    [0xffffffff]: lane [l] reads the variable of lane [l + delta]; a lane
    whose source would fall outside the warp gets its own value back. *)
Definition shfl_down_sync {A : Type} (var : N -> A) (delta lane : N) : A :=
  if lane + delta <? WARP_SIZE then var (lane + delta) else var lane.

(** One of the five unrolled exchange-and-compare blocks:
<<
    shfl_val = cuda.shfl_down_sync(mask, val, delta)
    shfl_idx = cuda.shfl_down_sync(mask, idx, delta)
    if val > shfl_val:
        val = shfl_val
        idx = shfl_idx
>>  *)
Definition shfl_min_step (delta : N) (regs : warp_regs) : warp_regs :=
  fun lane =>
    let own := regs lane in
    let shfl := shfl_down_sync regs delta lane in
    if gt (fst own) (fst shfl) then shfl else own.

Definition _warp_min_reduce_idx_unrolled (regs : warp_regs) : warp_regs :=
  shfl_min_step 1
    (shfl_min_step 2
       (shfl_min_step 4
          (shfl_min_step 8
             (shfl_min_step 16 regs)))).

(** The lane number read with its five bits in reverse order. *)
Definition bitrev5 (l : N) : N :=
  16 * (l mod 2) + 8 * ((l / 2) mod 2) + 4 * ((l / 4) mod 2)
  + 2 * ((l / 8) mod 2) + (l / 16) mod 2.

(** The lanes [0 .. n-1]. *)
Definition iota (n : N) : list N := map N.of_nat (seq 0 (N.to_nat n)).

Definition lanes : list N := iota WARP_SIZE.

(** Python's [range(start, stop, step)] for a positive [step]. *)
Definition py_range (start stop step : N) : list N :=
  map (fun k => start + k * step) (iota ((stop - start + (step - 1)) / step)).

(* ================================================================= *)
(** ** Device arrays and launch geometry *)

(** A one- and a two-dimensional device array: its shape and its cells.
    Numba's CUDA target performs no bounds check; the cell function is
    total and the theorems below say which accesses stay inside the
    shape. *)
Record array1 (T : Type) : Type := Array1 { len : N; at1 : N -> T }.
Record array2 (T : Type) : Type :=
  Array2 { shape0 : N; shape1 : N; at2 : N -> N -> T }.

Arguments Array1 {T} _ _.
Arguments len {T} _.
Arguments at1 {T} _ _.
Arguments Array2 {T} _ _ _.
Arguments shape0 {T} _.
Arguments shape1 {T} _.
Arguments at2 {T} _ _ _.

(** [a[i] = v] and [a[i, c] = v]. *)
Definition set1 {T} (a : array1 T) (i : N) (v : T) : array1 T :=
  Array1 (len a) (fun i' => if i' =? i then v else at1 a i').

Definition set2 {T} (a : array2 T) (i c : N) (v : T) : array2 T :=
  Array2 (shape0 a) (shape1 a)
    (fun i' c' => if (i' =? i) && (c' =? c) then v else at2 a i' c').

(** Storing into a [uint32] array wraps modulo [2^32]. *)
Definition to_uint32 (n : N) : N := n mod 4294967296.

(** [kernel[bpg, tpb]] with two-dimensional [bpg] and [tpb]. *)
Record launch_config : Type := Launch_config
  { gridDim_x : N; gridDim_y : N; blockDim_x : N; blockDim_y : N }.

Record thread : Type := Thread
  { blockIdx_x : N; blockIdx_y : N; threadIdx_x : N; threadIdx_y : N }.

(** [cuda.grid(2)] and [cuda.gridsize(2)]. *)
Definition grid_x (cfg : launch_config) (t : thread) : N :=
  threadIdx_x t + blockIdx_x t * blockDim_x cfg.
Definition grid_y (cfg : launch_config) (t : thread) : N :=
  threadIdx_y t + blockIdx_y t * blockDim_y cfg.
Definition gridsize_x (cfg : launch_config) : N :=
  blockDim_x cfg * gridDim_x cfg.
Definition gridsize_y (cfg : launch_config) : N :=
  blockDim_y cfg * gridDim_y cfg.

(** Threads of a block are numbered [threadIdx.x + threadIdx.y * blockDim.x]
    and cut into warps of 32 consecutive numbers. *)
Definition linear_tid (cfg : launch_config) (t : thread) : N :=
  threadIdx_x t + threadIdx_y t * blockDim_x cfg.
Definition laneid (cfg : launch_config) (t : thread) : N :=
  linear_tid cfg t mod WARP_SIZE.
Definition warpid (cfg : launch_config) (t : thread) : N :=
  linear_tid cfg t / WARP_SIZE.

(** The thread that is lane [l] of the warp of [t]. *)
Definition lane_of_warp (cfg : launch_config) (t : thread) (l : N) : thread :=
  let tid := WARP_SIZE * warpid cfg t + l in
  Thread (blockIdx_x t) (blockIdx_y t)
         (tid mod blockDim_x cfg) (tid / blockDim_x cfg).

(** Every thread of the grid, block by block. *)
Definition threads (cfg : launch_config) : list thread :=
  flat_map (fun bx =>
  flat_map (fun by_ =>
  flat_map (fun ty =>
  map (fun tx => Thread bx by_ tx ty) (iota (blockDim_x cfg)))
    (iota (blockDim_y cfg)))
    (iota (gridDim_y cfg)))
    (iota (gridDim_x cfg)).

Definition in_grid (cfg : launch_config) (t : thread) : Prop :=
  blockIdx_x t < gridDim_x cfg /\ blockIdx_y t < gridDim_y cfg /\
  threadIdx_x t < blockDim_x cfg /\ threadIdx_y t < blockDim_y cfg.

(** Block widths for which every warp lies inside one row of its block,
    so that its 32 lanes share [threadIdx.y] and run the outer loops of
    the kernels in step.  Every launch of the notebooks that uses warp
    shuffles has [blockDim.x = 32]. *)
Definition warp_rows (cfg : launch_config) : Prop :=
  blockDim_x cfg = WARP_SIZE.

(* ================================================================= *)
(** ** Nearest-neighbour kernels *)

(** The single-precision math functions the kernels call ([sin], [cos],
    [asin], [sqrt] from [math], compiled with [fastmath=True]). *)
Class LibDevice : Type := Lib_device
  { fsin : f32 -> f32; fcos : f32 -> f32; fasin : f32 -> f32; fsqrt : f32 -> f32 }.

(** Arguments of [_block_get_nearest_brute(coord1, coord2, block_idx,
    block_dist)] and of [_global_get_nearest_brute(block_dist, block_idx,
    out_dist, out_idx)]. *)
Record block_args : Type := Block_args
  { b_coord1 : array2 f32; b_coord2 : array2 f32;
    b_block_idx : array2 N; b_block_dist : array2 f32 }.

Record global_args : Type := Global_args
  { g_block_dist : array2 f32; g_block_idx : array2 N;
    g_out_dist : array1 f32; g_out_idx : array1 N }.

(** The pair of stores issued by lane 0 in Phase 1. *)
Record block_store : Type := Block_store
  { bs_row : N; bs_col : N; bs_dist : f32; bs_idx : N }.

Definition block_store_apply (a : block_args) (s : block_store) : block_args :=
  Block_args (b_coord1 a) (b_coord2 a)
    (set2 (b_block_idx a) (bs_row s) (bs_col s) (to_uint32 (bs_idx s)))
    (set2 (b_block_dist a) (bs_row s) (bs_col s) (bs_dist s)).

(** The pair of stores issued by lane 0 in Phase 2. *)
Record global_store : Type := Global_store
  { gs_row : N; gs_dist : f32; gs_idx : N }.

Definition global_store_apply (a : global_args) (s : global_store) : global_args :=
  Global_args (g_block_dist a) (g_block_idx a)
    (set1 (g_out_dist a) (gs_row s) (gs_dist s))
    (set1 (g_out_idx a) (gs_row s) (to_uint32 (gs_idx s))).

Section NearestNeighbour.

Context {libm : LibDevice}.

(** The haversine expression of the kernel, in single precision. *)
Definition local_val (coord2_i_0 coord2_i_1 coord1_j_0 coord1_j_1 : f32) : f32 :=
  let first_sin := fsin (mul (sub coord2_i_0 coord1_j_0) half) in
  let second_sin := fsin (mul (sub coord2_i_1 coord1_j_1) half) in
  mul two
    (fasin (fsqrt (add (mul first_sin first_sin)
                       (mul (mul (mul (fcos coord1_j_0) (fcos coord2_i_0))
                                 second_sin)
                            second_sin)))).

Definition dist_f32 (coord1 coord2 : array2 f32) (i j : N) : f32 :=
  local_val (at2 coord2 i 0) (at2 coord2 i 1) (at2 coord1 j 0) (at2 coord1 j 1).

(** Body of the inner loop of Phase 1 on [(b_min_val, b_min_idx)]. *)
Definition block_scan_body (coord1 coord2 : array2 f32) (i : N)
    (st : f32 * N) (j : N) : f32 * N :=
  let '(b_min_val, b_min_idx) := st in
  if lt (dist_f32 coord1 coord2 i j) b_min_val
  then (dist_f32 coord1 coord2 i j, j)
  else (b_min_val, b_min_idx).

(** The inner loop [for j in range(startx, coord1.shape[0], stridex)],
    from [b_min_val = seed], [b_min_idx = uint32(0)]. *)
Definition block_scan (coord1 coord2 : array2 f32) (startx stridex i : N)
  : f32 * N :=
  fold_left (block_scan_body coord1 coord2 i)
            (py_range startx (shape0 coord1) stridex) (seed_1e11, 0).

(** The registers of the 32 lanes of the warp of [t] when they reach the
    shuffles for observation [i]: each lane has run the inner loop from
    its own [startx].  (The lanes of a warp share [i] when the warp lies
    inside one row of its block, see [warp_rows].) *)
Definition block_regs (cfg : launch_config) (coord1 coord2 : array2 f32)
    (t : thread) (i : N) : warp_regs :=
  fun l => block_scan coord1 coord2 (grid_x cfg (lane_of_warp cfg t l))
                      (gridsize_x cfg) i.

(** One iteration of the outer loop of Phase 1 for thread [t]. *)
Definition block_iter (cfg : launch_config) (t : thread)
    (a : block_args) (i : N) : block_args :=
  let '(b_min_val, b_min_idx) :=
    _warp_min_reduce_idx_unrolled
      (block_regs cfg (b_coord1 a) (b_coord2 a) t i) (laneid cfg t) in
  if laneid cfg t =? 0
  then block_store_apply a (Block_store i (blockIdx_x t) b_min_val b_min_idx)
  else a.

Definition _block_get_nearest_brute_thread (cfg : launch_config) (a : block_args)
    (t : thread) : block_args :=
  fold_left (block_iter cfg t)
            (py_range (grid_y cfg t) (shape0 (b_coord2 a)) (gridsize_y cfg)) a.

(** The kernel launched as [block_min_reduce[bpg, tpb]].  No thread
    reads what another thread stores, so running the threads one after
    the other stands for any schedule in which no two of them store to
    the same cell. *)
Definition _block_get_nearest_brute (cfg : launch_config) (a : block_args)
  : block_args :=
  fold_left (_block_get_nearest_brute_thread cfg) (threads cfg) a.

(** The stores thread [t] issues in Phase 1, in program order. *)
Definition block_thread_stores (cfg : launch_config) (coord1 coord2 : array2 f32)
    (t : thread) : list block_store :=
  flat_map (fun i =>
    let r := _warp_min_reduce_idx_unrolled
               (block_regs cfg coord1 coord2 t i) (laneid cfg t) in
    if laneid cfg t =? 0
    then [Block_store i (blockIdx_x t) (fst r) (snd r)] else [])
    (py_range (grid_y cfg t) (shape0 coord2) (gridsize_y cfg)).

(** The [block_dist] cells thread [t] reads in its inner loop of Phase 2
    for row [i]: one read of column [threadIdx.x] per iteration. *)
Definition global_reads (cfg : launch_config) (ncols : N) (t : thread) (i : N)
  : list (N * N) :=
  map (fun _ => (i, threadIdx_x t))
      (py_range (grid_x cfg t) ncols (gridsize_x cfg)).

(** Body of the inner loop of Phase 2 on [(g_min_dist, g_min_idx)]. *)
Definition global_scan_body (block_dist : array2 f32) (block_idx : array2 N)
    (st : f32 * N) (cell : N * N) : f32 * N :=
  let '(g_min_dist, g_min_idx) := st in
  let local_dist := at2 block_dist (fst cell) (snd cell) in
  if lt local_dist g_min_dist
  then (local_dist, at2 block_idx (fst cell) (snd cell))
  else (g_min_dist, g_min_idx).

Definition global_scan (cfg : launch_config) (block_dist : array2 f32)
    (block_idx : array2 N) (t : thread) (i : N) : f32 * N :=
  fold_left (global_scan_body block_dist block_idx)
            (global_reads cfg (shape1 block_idx) t i) (seed_1e30, 0).

Definition global_regs (cfg : launch_config) (block_dist : array2 f32)
    (block_idx : array2 N) (t : thread) (i : N) : warp_regs :=
  fun l => global_scan cfg block_dist block_idx (lane_of_warp cfg t l) i.

Definition global_iter (cfg : launch_config) (t : thread)
    (a : global_args) (i : N) : global_args :=
  let '(g_min_dist, g_min_idx) :=
    _warp_min_reduce_idx_unrolled
      (global_regs cfg (g_block_dist a) (g_block_idx a) t i) (laneid cfg t) in
  if laneid cfg t =? 0
  then global_store_apply a (Global_store i g_min_dist g_min_idx)
  else a.

Definition _global_get_nearest_brute_thread (cfg : launch_config) (a : global_args)
    (t : thread) : global_args :=
  fold_left (global_iter cfg t)
            (py_range (grid_y cfg t) (len (g_out_dist a)) (gridsize_y cfg)) a.

(** The kernel launched as [global_min_reduce[bpg, tpb]]. *)
Definition _global_get_nearest_brute (cfg : launch_config) (a : global_args)
  : global_args :=
  fold_left (_global_get_nearest_brute_thread cfg) (threads cfg) a.

Definition global_thread_stores (cfg : launch_config) (block_dist : array2 f32)
    (block_idx : array2 N) (n_out : N) (t : thread) : list global_store :=
  flat_map (fun i =>
    let r := _warp_min_reduce_idx_unrolled
               (global_regs cfg block_dist block_idx t i) (laneid cfg t) in
    if laneid cfg t =? 0 then [Global_store i (fst r) (snd r)] else [])
    (py_range (grid_y cfg t) n_out (gridsize_y cfg)).

End NearestNeighbour.

(** A store that lands on cell [(i, c)] of the block arrays, resp. on
    cell [i] of the output arrays. *)
Definition block_hits (i c : N) (s : block_store) : bool :=
  (i =? bs_row s) && (c =? bs_col s).

Definition global_hits (i : N) (s : global_store) : bool :=
  i =? gs_row s.

Section Winners.

Context {libm : LibDevice}.

(** What lane 0 of the warp of block column [c] holds after the shuffles
    of Phase 1 for observation [i], when blocks are 32 threads wide and
    the grid is [gdx] blocks wide: lane [l] has scanned the references
    [l + 32 c, l + 32 c + 32 gdx, ...]. *)
Definition block_winner (gdx : N) (coord1 coord2 : array2 f32) (i c : N)
  : f32 * N :=
  _warp_min_reduce_idx_unrolled
    (fun l => block_scan coord1 coord2 (l + c * WARP_SIZE) (WARP_SIZE * gdx) i) 0.

(** What lane 0 holds after the shuffles of Phase 2 for row [i], when
    lane [l] has read column [l] once. *)
Definition global_winner (block_dist : array2 f32) (block_idx : array2 N)
    (i : N) : f32 * N :=
  _warp_min_reduce_idx_unrolled
    (fun l => global_scan_body block_dist block_idx (seed_1e30, 0) (i, l)) 0.

End Winners.

(* ================================================================= *)
(** ** The two-phase driver [numba_cuda_solve] *)

(** The six device buffers the driver works on. *)
Record device_memory : Type := Device_memory
  { d_ref : array2 f32; d_obs : array2 f32;
    d_block_idx : array2 N; d_block_dist : array2 f32;
    d_out_dist : array1 f32; d_out_idx : array1 N }.

(** [cuda.device_array] does not initialise what it allocates: the
    contents of the four fresh buffers are whatever the pool held. *)
Record uninitialised : Type := Uninitialised
  { u_out_idx : N -> N; u_out_dist : N -> f32;
    u_block_idx : N -> N -> N; u_block_dist : N -> N -> f32 }.

Inductive kernel : Type := block_min_reduce | global_min_reduce.

(** What the host asks of the device, in program order. *)
Inductive host_event : Type :=
| Ev_launch (k : kernel) (cfg : launch_config)
| Ev_synchronize.

(** The device as the host sees it: memory, the kernels queued on the
    default stream and not yet known to have completed, and the log of
    the calls made so far. *)
Record gpu : Type := Gpu
  { memory : device_memory;
    stream : list (kernel * launch_config);
    trace : list host_event }.

Section Driver.

Context {libm : LibDevice}.

(** [block_min_reduce[bpg, tpb](d_ref, d_obs, d_block_idx, d_block_dist)]
    and [global_min_reduce[bpg, tpb](d_block_dist, d_block_idx,
    d_out_dist, d_out_idx)] run to completion on a device memory. *)
Definition run_kernel (m : device_memory) (kc : kernel * launch_config)
  : device_memory :=
  match fst kc with
  | block_min_reduce =>
      let a := _block_get_nearest_brute (snd kc)
                 (Block_args (d_ref m) (d_obs m) (d_block_idx m) (d_block_dist m)) in
      Device_memory (b_coord1 a) (b_coord2 a) (b_block_idx a) (b_block_dist a)
                    (d_out_dist m) (d_out_idx m)
  | global_min_reduce =>
      let a := _global_get_nearest_brute (snd kc)
                 (Global_args (d_block_dist m) (d_block_idx m)
                              (d_out_dist m) (d_out_idx m)) in
      Device_memory (d_ref m) (d_obs m) (g_block_idx a) (g_block_dist a)
                    (g_out_dist a) (g_out_idx a)
  end.

(** A launch returns at once: the kernel is appended to the stream. *)
Definition launch (k : kernel) (cfg : launch_config) (g : gpu) : gpu :=
  Gpu (memory g) (stream g ++ [(k, cfg)]) (trace g ++ [Ev_launch k cfg]).

(** [cuda.synchronize()] blocks until the stream has drained; a stream
    runs its kernels one after the other, in the order of their launch. *)
Definition cuda_synchronize (g : gpu) : gpu :=
  Gpu (fold_left run_kernel (stream g) (memory g)) []
      (trace g ++ [Ev_synchronize]).

(** [numba_cuda_solve] with the two launch configurations as parameters. *)
Definition numba_cuda_solve_with (cfg1 cfg2 : launch_config) (u : uninitialised)
    (obs ref : array2 f32) : gpu :=
  let out_idx := Array1 (shape0 obs) (u_out_idx u) in
  let out_dist := Array1 (shape0 obs) (u_out_dist u) in
  let block_idx := Array2 (len out_idx) 32 (u_block_idx u) in
  let block_dist := Array2 (len out_idx) 32 (u_block_dist u) in
  let g := Gpu (Device_memory ref obs block_idx block_dist out_dist out_idx)
               [] [] in
  let g := launch block_min_reduce cfg1 g in
  let g := launch global_min_reduce cfg2 g in
  cuda_synchronize g.

(** [bpg = 32, 128; tpb = 32, 16] and [bpg = (1, 128*20); tpb = (32, 16)]. *)
Definition phase1_config : launch_config := Launch_config 32 128 32 16.
Definition phase2_config : launch_config := Launch_config 1 (128 * 20) 32 16.

Definition numba_cuda_solve (u : uninitialised) (obs ref : array2 f32) : gpu :=
  numba_cuda_solve_with phase1_config phase2_config u obs ref.

(** Device memory once the driver has allocated its four buffers. *)
Definition fresh_memory (u : uninitialised) (obs ref : array2 f32)
  : device_memory :=
  Device_memory ref obs
    (Array2 (shape0 obs) 32 (u_block_idx u))
    (Array2 (shape0 obs) 32 (u_block_dist u))
    (Array1 (shape0 obs) (u_out_dist u))
    (Array1 (shape0 obs) (u_out_idx u)).

(** The block arrays between the two phases. *)
Definition partials (cfg1 : launch_config) (u : uninitialised)
    (obs ref : array2 f32) : block_args :=
  _block_get_nearest_brute cfg1
    (Block_args ref obs (Array2 (shape0 obs) 32 (u_block_idx u))
                (Array2 (shape0 obs) 32 (u_block_dist u))).

(** The pair [(d_out_idx, d_out_dist)] the driver returns, read at
    observation [i]. *)
Definition returned_idx (g : gpu) (i : N) : N := at1 (d_out_idx (memory g)) i.
Definition returned_dist (g : gpu) (i : N) : f32 := at1 (d_out_dist (memory g)) i.

End Driver.

(** Every launch of [global_min_reduce] finds no [block_min_reduce]
    launched since the last synchronisation ([pending] tells whether one
    is outstanding). *)
Fixpoint phase2_after_barrier (pending : bool) (evs : list host_event) : bool :=
  match evs with
  | [] => true
  | Ev_launch block_min_reduce _ :: evs' => phase2_after_barrier true evs'
  | Ev_launch global_min_reduce _ :: evs' =>
      negb pending && phase2_after_barrier pending evs'
  | Ev_synchronize :: evs' => phase2_after_barrier false evs'
  end.

(** The last call of a log is a synchronisation. *)
Definition ends_synchronized (evs : list host_event) : bool :=
  match rev evs with
  | Ev_synchronize :: _ => true
  | _ => false
  end.

(** The launch shapes the driver is written for: blocks one warp wide,
    a Phase 1 grid as wide as the block arrays have columns, a Phase 2
    grid one block wide; the extents in [y] are free. *)
Definition phase1_shape (cfg : launch_config) : Prop :=
  blockDim_x cfg = WARP_SIZE /\ gridDim_x cfg = 32 /\
  0 < gridDim_y cfg /\ 0 < blockDim_y cfg.

Definition phase2_shape (cfg : launch_config) : Prop :=
  blockDim_x cfg = WARP_SIZE /\ gridDim_x cfg = 1 /\
  0 < gridDim_y cfg /\ 0 < blockDim_y cfg.

(** The grid-stride loops of a launch reach every pair of a row index
    below [rows] and a column index below [cols]. *)
Definition grid_stride_covers (cfg : launch_config) (rows cols : N) : Prop :=
  forall i j, i < rows -> j < cols ->
  exists t, in_grid cfg t /\
            In i (py_range (grid_y cfg t) rows (gridsize_y cfg)) /\
            In j (py_range (grid_x cfg t) cols (gridsize_x cfg)).

(* ================================================================= *)
(** ** What the reduction is said to compute *)

(** Lane [l] holds a minimal value among the 32 lanes, and no lower lane
    does. *)
Definition lowest_lane_min (regs : warp_regs) (r : f32 * N) : Prop :=
  exists l, l < WARP_SIZE /\ r = regs l /\
    (forall l', l' < WARP_SIZE -> le (fst (regs l)) (fst (regs l'))) /\
    (forall l', l' < l -> lt (fst (regs l)) (fst (regs l')) = true).

(** Lane [l] holds a minimal value among the 32 lanes, and every other
    lane that also does comes later in bit-reversed lane order. *)
Definition bitrev_lane_min (regs : warp_regs) (r : f32 * N) : Prop :=
  exists l, l < WARP_SIZE /\ r = regs l /\
    forall l', l' < WARP_SIZE ->
      le (fst (regs l)) (fst (regs l')) /\
      (le (fst (regs l')) (fst (regs l)) -> bitrev5 l <= bitrev5 l').

(** The lanes [l < 32] congruent to [L] modulo [d], and the winner among
    them: the state of lane [L] after the exchange at offset [d]. *)
Definition strand (d L l : N) : Prop := l < WARP_SIZE /\ l mod d = L.

Definition strand_min (regs : warp_regs) (d L : N) (r : f32 * N) : Prop :=
  exists l, strand d L l /\ r = regs l /\
    forall l', strand d L l' ->
      le (fst (regs l)) (fst (regs l')) /\
      (le (fst (regs l')) (fst (regs l)) -> bitrev5 l <= bitrev5 l').

(** In the exchange at offset [d], the lanes a receiving lane already
    stands for come before the lanes of its partner in bit-reversed
    order; checked on the 32 x 32 pairs of lanes. *)
Definition strands_ordered (d : N) : bool :=
  forallb (fun a =>
    forallb (fun b =>
      implb ((a mod (2 * d) <? d) && (b mod (2 * d) =? a mod (2 * d) + d))
            (bitrev5 a <=? bitrev5 b))
      lanes)
    lanes.

(* ================================================================= *)
(** ** Matrix multiplication kernels *)

(** [TPB = 16]: threads per block side and side of the shared tiles. *)
Definition TPB : N := 16.

(** [int(math.ceil(a / b))] on sizes. *)
Definition ceil_div (a b : N) : N := (a + (b - 1)) / b.

(** What a thread of [fast_matmul] does, in program order. *)
Inductive tile_event : Type :=
| Ev_preload (i : N)
| Ev_syncthreads
| Ev_partial_product (i : N)
| Ev_store_C.

Definition is_syncthreads (e : tile_event) : bool :=
  match e with Ev_syncthreads => true | _ => false end.

Definition is_preload (e : tile_event) : bool :=
  match e with Ev_preload _ => true | _ => false end.

Definition barriers (evs : list tile_event) : N :=
  N.of_nat (length (filter is_syncthreads evs)).

Definition preloads (evs : list tile_event) : N :=
  N.of_nat (length (filter is_preload evs)).

(** The errors in play: the configuration error of the specification,
    which no line of the notebooks raises; the [CudaAPIError] of a launch
    the driver rejects; the [ValueError] of [np.matmul]. *)
Inductive error : Type := ConfigurationError | CudaAPIError | ValueError.

(** How a launch cell ends.  [Raised e ran C]: on the exception [e],
    the kernel having run or not, the host array being [C] at that
    point.  [Returned C]: normally, with [C].  [Out_of_range]: some
    thread of the kernel indexes an array outside its shape; Numba's CUDA
    target checks no bound and nothing is said of what follows. *)
Inductive outcome (A : Type) : Type :=
| Raised (e : error) (ran : bool) (host : A)
| Returned (a : A)
| Out_of_range.

Arguments Raised {A} _ _ _.
Arguments Returned {A} _.
Arguments Out_of_range {A}.

(** A launch with a zero extent in its grid or in its block is rejected
    by the driver ([CUDA_ERROR_INVALID_VALUE]) before any thread runs. *)
Definition zero_extent (cfg : launch_config) : bool :=
  (gridDim_x cfg =? 0) || (gridDim_y cfg =? 0) ||
  (blockDim_x cfg =? 0) || (blockDim_y cfg =? 0).

Section MatrixMultiply.

(** The element type with its [0.], [+] and [*]; nothing is assumed of
    them, so rounding operations qualify. *)
Variable T : Type.
Variable zero : T.
Variables add mul : T -> T -> T.

Definition np_zeros (rows cols : N) : array2 T :=
  Array2 rows cols (fun _ _ => zero).

(** [for k in ks: tmp += A[row, k] * B[k, col]]. *)
Definition accumulate (A B : array2 T) (row col : N) (ks : list N) (tmp : T) : T :=
  fold_left (fun tmp k => add tmp (mul (at2 A row k) (at2 B k col))) ks tmp.

(** The body of [matmul] for one thread. *)
Definition matmul_thread (cfg : launch_config) (A B : array2 T)
    (C : array2 T) (t : thread) : array2 T :=
  let row := grid_x cfg t in
  let col := grid_y cfg t in
  if (row <? shape0 C) && (col <? shape1 C)
  then set2 C row col (accumulate A B row col (iota (shape1 A)) zero)
  else C.

Definition matmul (cfg : launch_config) (A B C : array2 T) : array2 T :=
  fold_left (matmul_thread cfg A B) (threads cfg) C.

(** An index pair that lies inside the shape of an array. *)
Definition inside (a : array2 T) (i c : N) : bool :=
  (i <? shape0 a) && (c <? shape1 a).

(** Whether every index thread [t] of [matmul] uses lies inside its
    array: [A[row, k]] and [B[k, col]] for each [k], and [C[row, col]]. *)
Definition matmul_thread_inside (cfg : launch_config) (A B C : array2 T)
    (t : thread) : bool :=
  let row := grid_x cfg t in
  let col := grid_y cfg t in
  if (row <? shape0 C) && (col <? shape1 C)
  then forallb (fun k => inside A row k && inside B k col) (iota (shape1 A))
       && inside C row col
  else true.

(** The launch cell of [matmul]: [C = np.zeros((A.shape[0], B.shape[1]))],
    a grid of [ceil(A.shape[0]/TPB)] by [ceil(B.shape[1]/TPB)] blocks of
    [TPB] by [TPB] threads, the launch with no test on the shapes before
    it, and then [result_serial = np.matmul(A, B)], which raises
    [ValueError] unless [A] has as many columns as [B] has rows. *)
Definition matmul_config (A B : array2 T) : launch_config :=
  Launch_config (ceil_div (shape0 A) TPB) (ceil_div (shape1 B) TPB) TPB TPB.

Definition matmul_launch (A B : array2 T) : outcome (array2 T) :=
  let C := np_zeros (shape0 A) (shape1 B) in
  let cfg := matmul_config A B in
  if zero_extent cfg then Raised CudaAPIError false C
  else if negb (forallb (matmul_thread_inside cfg A B C) (threads cfg))
  then Out_of_range
  else
    let C := matmul cfg A B C in
    if shape1 A =? shape0 B then Returned C else Raised ValueError true C.

(** The two shared tiles of a block. *)
Record tiles : Type := Tiles { sA : N -> N -> T; sB : N -> N -> T }.

(** The [tmp] register of each thread of a block, by
    [(threadIdx.x, threadIdx.y)]. *)
Definition registers : Type := N -> N -> T.

Definition upd (f : N -> N -> T) (i c : N) (v : T) : N -> N -> T :=
  fun i' c' => if (i' =? i) && (c' =? c) then v else f i' c'.

(** [x >= C.shape[0] and y >= C.shape[1]]: the thread returns at once. *)
Definition quits (C : array2 T) (x y : N) : bool :=
  (shape0 C <=? x) && (shape1 C <=? y).

Definition block_threads (cfg : launch_config) (bx by_ : N) : list thread :=
  flat_map (fun ty => map (fun tx => Thread bx by_ tx ty) (iota (blockDim_x cfg)))
           (iota (blockDim_y cfg)).

(** The threads of a block that go on past the test. *)
Definition running (cfg : launch_config) (C : array2 T) (bx by_ : N)
  : list thread :=
  filter (fun t => negb (quits C (grid_x cfg t) (grid_y cfg t)))
         (block_threads cfg bx by_).

(** [sA[tx, ty] = A[x, ty + i * TPB]; sB[tx, ty] = B[tx + i * TPB, y]]. *)
Definition preload (cfg : launch_config) (A B : array2 T) (i : N)
    (sh : tiles) (t : thread) : tiles :=
  let tx := threadIdx_x t in
  let ty := threadIdx_y t in
  Tiles (upd (sA sh) tx ty (at2 A (grid_x cfg t) (ty + i * TPB)))
        (upd (sB sh) tx ty (at2 B (tx + i * TPB) (grid_y cfg t))).

(** [for j in range(TPB): tmp += sA[tx, j] * sB[j, ty]], in the thread
    at [(tx, ty)]. *)
Definition partial_product (sh : tiles) (tmp : registers) : registers :=
  fun tx ty =>
    fold_left (fun acc j => add acc (mul (sA sh tx j) (sB sh j ty)))
              (iota TPB) (tmp tx ty).

(** One trip of the loop over the chunks of the reduction dimension for
    a whole block: the running threads store into the shared tiles, the
    first barrier, every thread accumulates into its own register from
    the tiles, the second barrier. *)
Definition chunk (cfg : launch_config) (A B : array2 T) (ts : list thread)
    (st : tiles * registers) (i : N) : tiles * registers :=
  let loaded := fold_left (preload cfg A B i) ts (fst st) in
  (loaded, partial_product loaded (snd st)).

(** [C[x, y] = tmp]. *)
Definition store_C (cfg : launch_config) (tmp : registers) (C : array2 T)
    (t : thread) : array2 T :=
  set2 C (grid_x cfg t) (grid_y cfg t) (tmp (threadIdx_x t) (threadIdx_y t)).

(** The registers of a block after the loop; [sh] is what the shared
    arrays hold when the block starts. *)
Definition block_registers (cfg : launch_config) (sh : N -> N -> T)
    (A B : array2 T) (ts : list thread) : registers :=
  snd (fold_left (chunk cfg A B ts) (iota (shape1 A / TPB))
                 (Tiles sh sh, fun _ _ => zero)).

(** One block of [fast_matmul]. *)
Definition fast_matmul_block (cfg : launch_config) (sh : N -> N -> T)
    (A B : array2 T) (C : array2 T) (b : N * N) : array2 T :=
  let ts := running cfg C (fst b) (snd b) in
  fold_left (store_C cfg (block_registers cfg sh A B ts)) ts C.

Definition blocks (cfg : launch_config) : list (N * N) :=
  flat_map (fun bx => map (fun by_ => (bx, by_)) (iota (gridDim_y cfg)))
           (iota (gridDim_x cfg)).

Definition fast_matmul (cfg : launch_config) (sh : N -> N -> T)
    (A B C : array2 T) : array2 T :=
  fold_left (fast_matmul_block cfg sh A B) (blocks cfg) C.

(** Whether every index thread [t] of [fast_matmul] uses lies inside
    its array: [sA[tx, ty]], [A[x, ty + i * TPB]], [sB[tx, ty]] and
    [B[tx + i * TPB, y]] in each trip [i] of the loop, and [C[x, y]]. *)
Definition fast_matmul_thread_inside (cfg : launch_config) (A B C : array2 T)
    (t : thread) : bool :=
  let x := grid_x cfg t in
  let y := grid_y cfg t in
  let tx := threadIdx_x t in
  let ty := threadIdx_y t in
  if quits C x y then true
  else forallb (fun i => (tx <? TPB) && (ty <? TPB) &&
                         inside A x (ty + i * TPB) && inside B (tx + i * TPB) y)
               (iota (shape1 A / TPB))
       && inside C x y.

(** The launch cell of [fast_matmul]: as the one of [matmul], with the
    same grid and the same [np.matmul(A, B)] after the launch. *)
Definition fast_matmul_launch (sh : N -> N -> T) (A B : array2 T)
  : outcome (array2 T) :=
  let C := np_zeros (shape0 A) (shape1 B) in
  let cfg := matmul_config A B in
  if zero_extent cfg then Raised CudaAPIError false C
  else if negb (forallb (fast_matmul_thread_inside cfg A B C) (threads cfg))
  then Out_of_range
  else
    let C := fast_matmul cfg sh A B C in
    if shape1 A =? shape0 B then Returned C else Raised ValueError true C.

(** The events of one thread of [fast_matmul]. *)
Definition fast_matmul_events (cfg : launch_config) (A C : array2 T)
    (t : thread) : list tile_event :=
  if quits C (grid_x cfg t) (grid_y cfg t) then []
  else flat_map (fun i => [Ev_preload i; Ev_syncthreads;
                           Ev_partial_product i; Ev_syncthreads])
                (iota (shape1 A / TPB))
       ++ [Ev_store_C].

End MatrixMultiply.

Arguments np_zeros {T} _ _ _.
Arguments accumulate {T} _ _ _ _ _ _ _ _.
Arguments matmul {T} _ _ _ _ _ _ _.
Arguments matmul_config {T} _ _.
Arguments matmul_launch {T} _ _ _ _ _.
Arguments fast_matmul {T} _ _ _ _ _ _ _ _.
Arguments fast_matmul_launch {T} _ _ _ _ _ _.
Arguments fast_matmul_events {T} _ _ _ _.
Arguments quits {T} _ _ _.
Arguments upd {T} _ _ _ _ _ _.
Arguments sA {T} _ _ _.
Arguments sB {T} _ _ _.
Arguments Tiles {T} _ _.
Arguments block_threads _ _ _ : clear implicits.
Arguments running {T} _ _ _ _.
Arguments preload {T} _ _ _ _ _ _.
Arguments partial_product {T} _ _ _ _ _ _.
Arguments chunk {T} _ _ _ _ _ _ _ _.
Arguments store_C {T} _ _ _ _.
Arguments block_registers {T} _ _ _ _ _ _ _ _ _.
Arguments fast_matmul_block {T} _ _ _ _ _ _ _ _ _.
Arguments matmul_thread {T} _ _ _ _ _ _ _ _.
Arguments inside {T} _ _ _.
Arguments matmul_thread_inside {T} _ _ _ _ _.
Arguments fast_matmul_thread_inside {T} _ _ _ _ _.

(* ================================================================= *)
(** ** Sample inputs *)

(** A warp in which lanes 1 and 2 both hold the least value [1.0] and
    every other lane holds [2.0]; each lane's index is its lane id. *)
Definition tied_regs : warp_regs :=
  fun l => (if (l =? 1) || (l =? 2) then one else two, l).

(** A warp in which lane 0 holds a NaN and every other lane holds [1.0]. *)
Definition nan_regs : warp_regs :=
  fun l => (if l =? 0 then S754_nan else one, l).

(** A stand-in for the math library that is exact at 0, where the sample
    inputs evaluate it: [sin x] as [x], [cos x] as [1], [asin x] as [x],
    and the correctly rounded square root. *)
Definition taylor0 : LibDevice :=
  Lib_device (fun x => x) (fun _ => one) (fun x => x) (SFsqrt prec emax).

(** The point [(0, 0)] alone, and no point at all. *)
Definition origin : array2 f32 := Array2 1 2 (fun _ _ => zero).
Definition no_points : array2 f32 := Array2 0 2 (fun _ _ => zero).

(** Fresh buffers that happen to hold the distance [-1.0] and the index
    [7] everywhere. *)
Definition stale : uninitialised :=
  Uninitialised (fun _ => 7) (fun _ => SFopp one)
                (fun _ _ => 7) (fun _ _ => SFopp one).

(** Fresh buffers that happen to hold zeros. *)
Definition zeroed : uninitialised :=
  Uninitialised (fun _ => 0) (fun _ => zero) (fun _ _ => 0) (fun _ _ => zero).

(** Two launches of one warp per block: a grid 32 blocks wide and a grid
    one block wide. *)
Definition wide_config : launch_config := Launch_config 32 1 32 1.
Definition narrow_config : launch_config := Launch_config 1 1 32 1.

(** Block arrays of one row and 32 columns. *)
Definition one_row_partials : array2 N := Array2 1 32 (fun _ _ => 0).

(** Arguments of the two kernels for the one observation [(0, 0)]: block
    arrays of one row that hold the distance [1.0] and the index 0 in
    each of their 32 columns, output arrays of one cell. *)
Definition one_row_block_args : block_args :=
  Block_args origin origin one_row_partials (Array2 1 32 (fun _ _ => one)).

Definition one_row_global_args : global_args :=
  Global_args (Array2 1 32 (fun _ _ => one)) one_row_partials
              (Array1 1 (fun _ => zero)) (Array1 1 (fun _ => 0)).

(** Double-precision elements for the matrices. *)
Definition f64_zero : spec_float := S754_zero false.
Definition f64_one : spec_float := S754_finite false 4503599627370496 (-52).
Definition f64_add : spec_float -> spec_float -> spec_float := SFadd 53 1024.
Definition f64_mul : spec_float -> spec_float -> spec_float := SFmul 53 1024.

(** The 16 x 16 identity, and matrices of ones of the shapes 17 x 16,
    16 x 17, 1 x 1 and 2 x 1. *)
Definition identity16 : array2 spec_float :=
  Array2 16 16 (fun r c => if r =? c then f64_one else f64_zero).
Definition ones_17x16 : array2 spec_float := Array2 17 16 (fun _ _ => f64_one).
Definition ones_16x17 : array2 spec_float := Array2 16 17 (fun _ _ => f64_one).


(* ================================================================= *)
(** ** The host solver [numba_cpu_solve] *)

(** Double-precision values, and the conversions Numba inserts between
    [float32] and [float64]: widening is exact, narrowing rounds to
    nearest. *)
Definition f64 := spec_float.

Definition to_f64 (x : f32) : f64 :=
  match x with
  | S754_finite s m e => binary_round 53 1024 s m e
  | _ => x
  end.

Definition to_f32 (x : f64) : f32 :=
  match x with
  | S754_finite s m e => binary_round 24 128 s m e
  | _ => x
  end.

Definition f64_div : f64 -> f64 -> f64 := SFdiv 53 1024.

(** The literals [2.0] and [1e11] in double precision. *)
Definition f64_two : f64 := S754_finite false 4503599627370496 (-51).
Definition f64_1e11 : f64 := S754_finite false 6553600000000000 (-16).

(** The math functions [numba_cpu_haversine] calls, at the types Numba
    gives them there: [sin], [asin] and [sqrt] on [float64], [cos] on
    [float32]. *)
Class HostLibm : Type := Host_libm
  { sin64 : f64 -> f64; asin64 : f64 -> f64; sqrt64 : f64 -> f64;
    cos32 : f32 -> f32 }.

Section HostSolve.

Context {hostm : HostLibm}.

(** [2.0 * asin(sqrt(sin((lat2 - lat1) / 2.0)**2 +
     cos(lat1) * cos(lat2) * sin((lon2 - lon1) / 2.0)**2))] on [float32]
    arguments: the differences and the product of cosines are single
    precision, the division by [2.0] widens, [x**2] is [x * x]. *)
Definition numba_cpu_haversine (lat1 lon1 lat2 lon2 : f32) : f64 :=
  let sin_lat := sin64 (f64_div (to_f64 (sub lat2 lat1)) f64_two) in
  let sin_lon := sin64 (f64_div (to_f64 (sub lon2 lon1)) f64_two) in
  f64_mul f64_two
    (asin64 (sqrt64 (f64_add (f64_mul sin_lat sin_lat)
                             (f64_mul (to_f64 (mul (cos32 lat1) (cos32 lat2)))
                                      (f64_mul sin_lon sin_lon))))).

Definition temp_dist (a b : array2 f32) (obs_idx ref_idx : N) : f64 :=
  numba_cpu_haversine (at2 a obs_idx 0) (at2 a obs_idx 1)
                      (at2 b ref_idx 0) (at2 b ref_idx 1).

(** Body of the inner loop on [(glob_min_dist, glob_min_idx)]. *)
Definition cpu_scan_body (a b : array2 f32) (obs_idx : N)
    (st : f64 * N) (ref_idx : N) : f64 * N :=
  let '(glob_min_dist, glob_min_idx) := st in
  if lt (temp_dist a b obs_idx ref_idx) glob_min_dist
  then (temp_dist a b obs_idx ref_idx, ref_idx)
  else (glob_min_dist, glob_min_idx).

(** The inner loop [for ref_idx in range(b.shape[0])] from
    [glob_min_dist = 1e11], [glob_min_idx = 0]. *)
Definition cpu_scan (a b : array2 f32) (obs_idx : N) : f64 * N :=
  fold_left (cpu_scan_body a b obs_idx) (iota (shape0 b)) (f64_1e11, 0).

(** One trip of the outer loop on [(out_idx, out_dist)]:
    [out_dist[obs_idx] = glob_min_dist; out_idx[obs_idx] = glob_min_idx],
    into a [float32] and a [uint32] array. *)
Definition cpu_solve_row (a b : array2 f32) (out : array1 N * array1 f32)
    (obs_idx : N) : array1 N * array1 f32 :=
  let best := cpu_scan a b obs_idx in
  (set1 (fst out) obs_idx (to_uint32 (snd best)),
   set1 (snd out) obs_idx (to_f32 (fst best))).

(** [numba_cpu_solve(a, b)]; [e_idx] and [e_dist] are what the two
    [np.empty] arrays hold when allocated. *)
Definition numba_cpu_solve (e_idx : N -> N) (e_dist : N -> f32)
    (a b : array2 f32) : array1 N * array1 f32 :=
  fold_left (cpu_solve_row a b) (iota (shape0 a))
            (Array1 (shape0 a) e_idx, Array1 (shape0 a) e_dist).

End HostSolve.

(* ================================================================= *)
(** ** Pairwise distance kernels *)

Section DistanceMatrix.

(** The element type with [np.zeros]' 0, [-], [+], [x**2] and [x**0.5]. *)
Variable T : Type.
Variable zero : T.
Variables dsub dadd : T -> T -> T.
Variables pow2 pow_half : T -> T.

(** [((p0 - q0)**2 + (p1 - q1)**2)**0.5]. *)
Definition euclid (p0 p1 q0 q1 : T) : T :=
  pow_half (dadd (pow2 (dsub p0 q0)) (pow2 (dsub p1 q1))).

(** The body of [distance_matrix_cuda] for one thread; the test is
    [i > len(data) or j > len(data)]. *)
Definition distance_matrix_cuda_thread (cfg : launch_config) (data : array2 T)
    (distance_matrix : array2 T) (t : thread) : array2 T :=
  let i := grid_x cfg t in
  let j := grid_y cfg t in
  if (shape0 data <? i) || (shape0 data <? j)
  then distance_matrix
  else set2 distance_matrix i j
            (euclid (at2 data i 0) (at2 data i 1) (at2 data j 0) (at2 data j 1)).

Definition distance_matrix_cuda (cfg : launch_config) (data : array2 T)
    (distance_matrix : array2 T) : array2 T :=
  fold_left (distance_matrix_cuda_thread cfg data) (threads cfg) distance_matrix.

(** Its launch cell: [num_blocks = (n_samples, n_samples)],
    [num_threads_per_block = 1], on [np.zeros((n_samples, n_samples))]. *)
Definition distance_matrix_cuda_launch (data : array2 T) : array2 T :=
  distance_matrix_cuda (Launch_config (shape0 data) (shape0 data) 1 1) data
    (Array2 (shape0 data) (shape0 data) (fun _ _ => zero)).

(** The body of [distance_matrix_cuda_optimized] for one thread.
    [current_point = data[i]] rebinds the name to row [i] of [data] when
    [i] is a row; otherwise the name still stands for the shared array,
    which holds [sh].  Every thread passes the barrier that follows. *)
Definition distance_matrix_cuda_optimized_thread (sh : N -> T)
    (data : array2 T) (distance_matrix : array2 T) (t : thread) : array2 T :=
  let i := blockIdx_x t in
  let current_point := if i <? shape0 data then at2 data i else sh in
  let j := threadIdx_x t in
  if j <? shape0 data
  then set2 distance_matrix i j
            (euclid (current_point 0) (current_point 1)
                    (at2 data j 0) (at2 data j 1))
  else distance_matrix.

Definition distance_matrix_cuda_optimized (cfg : launch_config) (sh : N -> T)
    (data : array2 T) (distance_matrix : array2 T) : array2 T :=
  fold_left (distance_matrix_cuda_optimized_thread sh data) (threads cfg)
            distance_matrix.

(** Its launch cell: [num_blocks = n_samples],
    [num_threads_per_block = n_samples]. *)
Definition distance_matrix_cuda_optimized_launch (sh : N -> T)
    (data : array2 T) : array2 T :=
  distance_matrix_cuda_optimized (Launch_config (shape0 data) 1 (shape0 data) 1)
    sh data (Array2 (shape0 data) (shape0 data) (fun _ _ => zero)).

End DistanceMatrix.

Arguments euclid {T} _ _ _ _ _ _ _ _.
Arguments distance_matrix_cuda {T} _ _ _ _ _ _ _.
Arguments distance_matrix_cuda_launch {T} _ _ _ _ _ _.
Arguments distance_matrix_cuda_optimized {T} _ _ _ _ _ _ _ _.
Arguments distance_matrix_cuda_optimized_launch {T} _ _ _ _ _ _ _.

(** A block may hold at most 1024 threads. *)
Definition MAX_THREADS_PER_BLOCK : N := 1024.

(* ================================================================= *)
(** ** The vectorization notebook *)

(** [np.arange(n)]. *)
Definition np_arange (n : nat) : list Z := map Z.of_nat (seq 0 n).

(** [lessthank_forloop(k)] on the global array [X]: what it prints after
    ["for loop result"] and what it returns. *)
Definition lessthank_forloop (X : list Z) (k : Z) : Z * Z :=
  let count :=
    fold_left (fun count i => if (nth i X 0 <? k)%Z then (count + 1)%Z else count)
              (seq 0 (length X)) 0%Z in
  (count, count).

(** [lessthank_vectorize(k)]: [np.count_nonzero((X < k))], printed and
    returned. *)
Definition lessthank_vectorize (X : list Z) (k : Z) : Z * Z :=
  let num_lessthan_k :=
    Z.of_nat (length (filter (fun b : bool => b) (map (fun x => (x <? k)%Z) X))) in
  (num_lessthan_k, num_lessthan_k).

(** The product of two [int64] elements wraps; added to a float it is
    first converted to [float64]. *)
Definition int64_wrap (z : Z) : Z :=
  ((z + 9223372036854775808) mod 18446744073709551616 - 9223372036854775808)%Z.

Definition float64_of_int (z : Z) : f64 := binary_normalize 53 1024 z 0 false.

(** [dotproduct_forloop(vector1, vector2, length)] on [int64] arrays;
    [None] stands for the [IndexError] of an index past the end. *)
Definition dotproduct_step (vector1 vector2 : list Z) (dot : option f64)
    (i : nat) : option f64 :=
  match dot, nth_error vector1 i, nth_error vector2 i with
  | Some d, Some x, Some y => Some (f64_add d (float64_of_int (int64_wrap (x * y))))
  | _, _, _ => None
  end.

Definition dotproduct_forloop (vector1 vector2 : list Z) (length : Z)
  : option f64 :=
  fold_left (dotproduct_step vector1 vector2) (seq 0 (Z.to_nat length))
            (Some f64_zero).

(** Sample inputs: stand-ins for the host math library, three points on
    the first axis, and two short vectors. *)
Definition host_taylor0 : HostLibm :=
  Host_libm (fun x => x) (fun x => x) (SFsqrt 53 1024) (fun _ => one).

Definition three_points : array2 f32 :=
  Array2 3 2 (fun r c => if c =? 0 then (if r =? 1 then zero else one) else zero).

Definition vector_123 : list Z := [1; 2; 3]%Z.
Definition vector_45 : list Z := [4; 5]%Z.

(* ================================================================= *)
(** * Properties *)

(** ** The order of single-precision values *)

Ltac f32_order :=
  unfold le, lt, gt, is_nan, SFltb, SFcompare in *;
  repeat match goal with
         | x : f32 |- _ => destruct x
         | x : spec_float |- _ => destruct x
         end;
  repeat match goal with
         | s : bool |- _ => destruct s
         end;
  simpl in *; try congruence;
  change (Pos.compare_cont Eq) with Pos.compare in *;
  repeat match goal with
         | H : context [Z.compare ?a ?b] |- _ => destruct (Z.compare_spec a b)
         | |- context [Z.compare ?a ?b] => destruct (Z.compare_spec a b)
         | H : context [Pos.compare ?a ?b] |- _ => destruct (Pos.compare_spec a b)
         | |- context [Pos.compare ?a ?b] => destruct (Pos.compare_spec a b)
         end;
  simpl in *; try congruence; try lia.

Lemma lt_irrefl (a : f32) : lt a a = false.
Proof. f32_order. Qed.

Lemma lt_asym (a b : f32) : lt a b = true -> lt b a = false.
Proof. intros H. f32_order. Qed.

Lemma lt_not_nan (a b : f32) :
  lt a b = true -> is_nan a = false /\ is_nan b = false.
Proof. intros H. f32_order; auto. Qed.

Lemma le_trans (a b c : f32) :
  is_nan b = false -> le a b -> le b c -> le a c.
Proof. intros Hb H1 H2. f32_order. Qed.

Lemma le_lt_trans (a b c : f32) :
  is_nan a = false -> le a b -> lt b c = true -> lt a c = true.
Proof. intros Ha H1 H2. f32_order. Qed.

Lemma lt_le_trans (a b c : f32) :
  is_nan c = false -> lt a b = true -> le b c -> lt a c = true.
Proof. intros Hc H1 H2. f32_order. Qed.

(* ================================================================= *)
(** ** Ranges *)

Lemma iota_In (n k : N) : In k (iota n) <-> k < n.
Proof.
  unfold iota. rewrite in_map_iff. split.
  - intros [x [Hx Hin]]. apply in_seq in Hin. lia.
  - intros Hk. exists (N.to_nat k). split; [lia |]. apply in_seq. lia.
Qed.

Lemma py_range_In (start stop step i : N) :
  0 < step ->
  In i (py_range start stop step) <->
  exists k, i = start + k * step /\ i < stop.
Proof.
  intros Hstep. unfold py_range.
  set (a := stop - start + (step - 1)).
  pose proof (N.div_mod a step ltac:(lia)) as Hdm.
  pose proof (N.mod_lt a step ltac:(lia)) as Hml.
  rewrite in_map_iff. split.
  - intros [k [Hk Hin]]. apply iota_In in Hin. exists k. split; [lia |].
    subst i. unfold a in *. nia.
  - intros [k [Hk Hlt]]. exists k. split; [lia |]. apply iota_In.
    unfold a in *. nia.
Qed.

(* ================================================================= *)
(** ** The warp reduction *)

Lemma shfl_min_step_inside (d : N) (r : warp_regs) (L : N) :
  L + d < WARP_SIZE ->
  shfl_min_step d r L =
  if gt (fst (r L)) (fst (r (L + d))) then r (L + d) else r L.
Proof.
  intros H. unfold shfl_min_step, shfl_down_sync.
  apply N.ltb_lt in H. rewrite H. reflexivity.
Qed.

Lemma strand_halve (d L l : N) :
  d = 16 \/ d = 8 \/ d = 4 \/ d = 2 \/ d = 1 ->
  L < d ->
  strand d L l <-> strand (2 * d) L l \/ strand (2 * d) (L + d) l.
Proof.
  unfold strand, WARP_SIZE.
  intros [-> | [-> | [-> | [-> | ->]]]] HL; simpl; lia.
Qed.

Lemma strands_ordered_all :
  forallb strands_ordered [16; 8; 4; 2; 1] = true.
Proof. vm_compute. reflexivity. Qed.

Lemma bitrev5_strands (d L a b : N) :
  d = 16 \/ d = 8 \/ d = 4 \/ d = 2 \/ d = 1 ->
  L < d ->
  strand (2 * d) L a -> strand (2 * d) (L + d) b ->
  bitrev5 a <= bitrev5 b.
Proof.
  intros Hd HL [Ha Hma] [Hb Hmb].
  assert (Hin : In d [16; 8; 4; 2; 1]) by (simpl; intuition).
  pose proof strands_ordered_all as Hall.
  rewrite forallb_forall in Hall. specialize (Hall d Hin).
  unfold strands_ordered in Hall.
  rewrite forallb_forall in Hall.
  specialize (Hall a (proj2 (iota_In _ _) Ha)).
  rewrite forallb_forall in Hall.
  specialize (Hall b (proj2 (iota_In _ _) Hb)).
  rewrite Hma, Hmb in Hall.
  apply N.ltb_lt in HL. rewrite HL, N.eqb_refl in Hall. simpl in Hall.
  apply N.leb_le. exact Hall.
Qed.

Section WarpReduce.

Variable regs : warp_regs.
Hypothesis regs_not_nan :
  forall l, l < WARP_SIZE -> is_nan (fst (regs l)) = false.

Lemma strand_min_start (L : N) :
  L < WARP_SIZE -> strand_min regs WARP_SIZE L (regs L).
Proof.
  intros HL. exists L. unfold strand, WARP_SIZE in *.
  split; [lia |]. split; [reflexivity |].
  intros l' [Hl' Hm]. assert (l' = L) by lia. subst l'.
  split; [apply lt_irrefl | lia].
Qed.

Lemma strand_min_step (d : N) (r : warp_regs) :
  d = 16 \/ d = 8 \/ d = 4 \/ d = 2 \/ d = 1 ->
  (forall L, L < 2 * d -> strand_min regs (2 * d) L (r L)) ->
  forall L, L < d -> strand_min regs d L (shfl_min_step d r L).
Proof.
  intros Hd Hr L HL.
  assert (Hin : L + d < WARP_SIZE) by (unfold WARP_SIZE; lia).
  rewrite (shfl_min_step_inside _ _ _ Hin).
  destruct (Hr L ltac:(lia)) as [a [Sa [Ea Ma]]].
  destruct (Hr (L + d) ltac:(lia)) as [b [Sb [Eb Mb]]].
  rewrite Ea, Eb.
  assert (Na : is_nan (fst (regs a)) = false) by (apply regs_not_nan, Sa).
  assert (Nb : is_nan (fst (regs b)) = false) by (apply regs_not_nan, Sb).
  destruct (gt (fst (regs a)) (fst (regs b))) eqn:G; unfold gt in G.
  - exists b. split; [apply (strand_halve d L b Hd HL); now right |].
    split; [reflexivity |].
    intros l' Sl'.
    assert (Nl : is_nan (fst (regs l')) = false) by (apply regs_not_nan, Sl').
    apply (strand_halve d L l' Hd HL) in Sl'. destruct Sl' as [Sl' | Sl'].
    + destruct (Ma l' Sl') as [Hle _].
      assert (Hlt : lt (fst (regs b)) (fst (regs l')) = true)
        by (apply (lt_le_trans _ (fst (regs a))); assumption).
      split; [apply lt_asym; exact Hlt |].
      unfold le. intros Hc. congruence.
    + apply Mb, Sl'.
  - exists a. split; [apply (strand_halve d L a Hd HL); now left |].
    split; [reflexivity |].
    intros l' Sl'.
    apply (strand_halve d L l' Hd HL) in Sl'. destruct Sl' as [Sl' | Sl'].
    + apply Ma, Sl'.
    + destruct (Mb l' Sl') as [Hle _]. split.
      * apply (le_trans _ (fst (regs b))); assumption.
      * intros _. apply (bitrev5_strands d L); assumption.
Qed.

Lemma warp_reduce_strand :
  strand_min regs 1 0 (_warp_min_reduce_idx_unrolled regs 0).
Proof.
  unfold _warp_min_reduce_idx_unrolled.
  apply (strand_min_step 1); [tauto | | lia].
  apply (strand_min_step 2); [tauto |].
  apply (strand_min_step 4); [tauto |].
  apply (strand_min_step 8); [tauto |].
  apply (strand_min_step 16); [tauto |].
  intros L HL. apply strand_min_start. exact HL.
Qed.

Lemma warp_reduce_bitrev_min :
  bitrev_lane_min regs (_warp_min_reduce_idx_unrolled regs 0).
Proof.
  destruct warp_reduce_strand as [l [[Hl _] [E M]]].
  exists l. split; [exact Hl |]. split; [exact E |].
  intros l' Hl'. apply M. split; [exact Hl' | apply N.mod_1_r].
Qed.

End WarpReduce.

(** The five exchanges resolve the tie of [tied_regs] in favour of
    lane 2, not of lane 1. *)
Example tied_regs_lane0 :
  _warp_min_reduce_idx_unrolled tied_regs 0 = (one, 2).
Proof. vm_compute. reflexivity. Qed.

(** A NaN compares neither above nor below anything: lane 0 keeps it
    through the five exchanges, whatever the other lanes hold. *)
Example nan_regs_lane0 :
  _warp_min_reduce_idx_unrolled nan_regs 0 = (S754_nan, 0).
Proof. vm_compute. reflexivity. Qed.

(** C3, as stated, fails: on [tied_regs] the pair lane 0 ends with does
    not come from the lowest lane holding the least value (lane 1) but
    from lane 2. *)
Lemma warp_reduce_not_lowest_lane :
  ~ lowest_lane_min tied_regs (_warp_min_reduce_idx_unrolled tied_regs 0).
Proof.
  rewrite tied_regs_lane0.
  intros [l [Hl [E [_ Hlow]]]].
  unfold tied_regs in E. injection E as _ El. subst l.
  specialize (Hlow 1 ltac:(lia)).
  vm_compute in Hlow. discriminate.
Qed.

(** C3, amended: when no lane holds a NaN, lane 0 ends with the pair of
    a lane holding the least of the 32 values, and among the lanes that
    hold this least value it is the one whose lane number is smallest
    when its five bits are read in reverse order. *)
Theorem warp_reduce_lane0_bitrev_min (regs : warp_regs) :
  (forall l, l < WARP_SIZE -> is_nan (fst (regs l)) = false) ->
  bitrev_lane_min regs (_warp_min_reduce_idx_unrolled regs 0).
Proof.
  intros Hnan. apply warp_reduce_bitrev_min. exact Hnan.
Qed.

Lemma warp_reduce_lane0_bitrev_min_witness :
  (forall l, l < WARP_SIZE -> is_nan (fst (tied_regs l)) = false) /\
  bitrev_lane_min tied_regs (_warp_min_reduce_idx_unrolled tied_regs 0).
Proof.
  assert (H : forall l, l < WARP_SIZE -> is_nan (fst (tied_regs l)) = false).
  { intros l _. unfold tied_regs.
    destruct ((l =? 1) || (l =? 2)); reflexivity. }
  split; [exact H | apply (warp_reduce_lane0_bitrev_min tied_regs H)].
Defined.

(** Lane 0 reads nothing but the registers of the 32 lanes. *)
Lemma shfl_min_step_ext (d : N) (r r' : warp_regs) :
  (forall l, l < WARP_SIZE -> r l = r' l) ->
  forall l, l < WARP_SIZE -> shfl_min_step d r l = shfl_min_step d r' l.
Proof.
  intros H l Hl. unfold shfl_min_step, shfl_down_sync.
  destruct (l + d <? WARP_SIZE) eqn:E.
  - apply N.ltb_lt in E. rewrite (H l Hl), (H (l + d) E). reflexivity.
  - rewrite (H l Hl). reflexivity.
Qed.

Lemma warp_reduce_ext (r r' : warp_regs) :
  (forall l, l < WARP_SIZE -> r l = r' l) ->
  forall l, l < WARP_SIZE ->
  _warp_min_reduce_idx_unrolled r l = _warp_min_reduce_idx_unrolled r' l.
Proof.
  intros H. unfold _warp_min_reduce_idx_unrolled.
  do 5 apply shfl_min_step_ext. exact H.
Qed.

(** A warp whose lanes all hold the same pair keeps it. *)
Lemma shfl_min_step_const (d : N) (r : warp_regs) (p : f32 * N) :
  (forall l, l < WARP_SIZE -> r l = p) ->
  forall l, l < WARP_SIZE -> shfl_min_step d r l = p.
Proof.
  intros H l Hl. unfold shfl_min_step, shfl_down_sync.
  destruct (l + d <? WARP_SIZE) eqn:E.
  - apply N.ltb_lt in E. rewrite (H l Hl), (H (l + d) E).
    unfold gt. rewrite lt_irrefl. reflexivity.
  - rewrite (H l Hl). unfold gt. rewrite lt_irrefl. reflexivity.
Qed.

Lemma warp_reduce_const (r : warp_regs) (p : f32 * N) :
  (forall l, l < WARP_SIZE -> r l = p) ->
  _warp_min_reduce_idx_unrolled r 0 = p.
Proof.
  intros H. unfold _warp_min_reduce_idx_unrolled.
  apply shfl_min_step_const; [| reflexivity].
  do 4 apply shfl_min_step_const. exact H.
Qed.

(* ================================================================= *)
(** ** Launch geometry *)

Lemma threads_In (cfg : launch_config) (t : thread) :
  In t (threads cfg) <-> in_grid cfg t.
Proof.
  unfold threads, in_grid. split.
  - intros H.
    apply in_flat_map in H. destruct H as [bx [Hbx H]].
    apply in_flat_map in H. destruct H as [by_ [Hby H]].
    apply in_flat_map in H. destruct H as [ty [Hty H]].
    apply in_map_iff in H. destruct H as [tx [E Htx]].
    apply iota_In in Hbx, Hby, Hty, Htx. subst t. simpl. tauto.
  - destruct t as [bx by_ tx ty]. simpl. intros [Hbx [Hby [Htx Hty]]].
    apply in_flat_map. exists bx. split; [apply iota_In, Hbx |].
    apply in_flat_map. exists by_. split; [apply iota_In, Hby |].
    apply in_flat_map. exists ty. split; [apply iota_In, Hty |].
    apply in_map_iff. exists tx. split; [reflexivity | apply iota_In, Htx].
Qed.

Section WarpRows.

Variable cfg : launch_config.
Hypothesis rows : warp_rows cfg.
Variable t : thread.
Hypothesis t_in_grid : in_grid cfg t.

Lemma laneid_is_threadIdx_x : laneid cfg t = threadIdx_x t.
Proof.
  unfold laneid, linear_tid. destruct t_in_grid as [_ [_ [Htx _]]].
  unfold warp_rows, WARP_SIZE in *. rewrite rows in *. lia.
Qed.

Lemma warpid_is_threadIdx_y : warpid cfg t = threadIdx_y t.
Proof.
  unfold warpid, linear_tid. destruct t_in_grid as [_ [_ [Htx _]]].
  unfold warp_rows, WARP_SIZE in *. rewrite rows in *. lia.
Qed.

Lemma lane_of_warp_rows (l : N) :
  l < WARP_SIZE ->
  lane_of_warp cfg t l =
  Thread (blockIdx_x t) (blockIdx_y t) l (threadIdx_y t).
Proof.
  intros Hl. unfold lane_of_warp. rewrite warpid_is_threadIdx_y.
  unfold warp_rows, WARP_SIZE in *. rewrite rows.
  f_equal; lia.
Qed.

Lemma grid_x_lane (l : N) :
  l < WARP_SIZE ->
  grid_x cfg (lane_of_warp cfg t l) = l + blockIdx_x t * WARP_SIZE.
Proof.
  intros Hl. rewrite (lane_of_warp_rows l Hl). unfold grid_x. simpl.
  rewrite rows. reflexivity.
Qed.

End WarpRows.

(* ================================================================= *)
(** ** Kernels as sequences of stores *)

Lemma fold_left_invariant {S E : Type} (app : S -> E -> S) (Inv : S -> Prop) :
  (forall s e, Inv s -> Inv (app s e)) ->
  forall es s, Inv s -> Inv (fold_left app es s).
Proof.
  intros Happ es. induction es as [| e es IH]; simpl; intros s Hs.
  - exact Hs.
  - apply IH, Happ, Hs.
Qed.

(** A loop whose every trip amounts to a batch of stores amounts to the
    concatenation of the batches. *)
Lemma fold_left_flat_map {S X E : Type} (f : S -> X -> S) (app : S -> E -> S)
    (g : X -> list E) (Inv : S -> Prop) (xs : list X) :
  (forall s e, Inv s -> Inv (app s e)) ->
  (forall s x, In x xs -> Inv s -> f s x = fold_left app (g x) s) ->
  forall s, Inv s -> fold_left f xs s = fold_left app (flat_map g xs) s.
Proof.
  intros Happ. induction xs as [| x xs IH]; simpl; intros Hf s Hs.
  - reflexivity.
  - rewrite fold_left_app, <- (Hf s x (or_introl eq_refl) Hs). apply IH.
    + intros s' x' Hx'. apply Hf. now right.
    + rewrite (Hf s x (or_introl eq_refl) Hs).
      apply fold_left_invariant; assumption.
Qed.

Section Phase1.

Context {libm : LibDevice}.

Lemma block_stores_frame (ss : list block_store) (a : block_args) :
  b_coord1 (fold_left block_store_apply ss a) = b_coord1 a /\
  b_coord2 (fold_left block_store_apply ss a) = b_coord2 a.
Proof.
  apply (fold_left_invariant block_store_apply
           (fun s => b_coord1 s = b_coord1 a /\ b_coord2 s = b_coord2 a)).
  - intros s e H. exact H.
  - split; reflexivity.
Qed.

Lemma block_stores_shape (ss : list block_store) (a : block_args) :
  shape0 (b_block_dist (fold_left block_store_apply ss a)) = shape0 (b_block_dist a) /\
  shape1 (b_block_dist (fold_left block_store_apply ss a)) = shape1 (b_block_dist a) /\
  shape0 (b_block_idx (fold_left block_store_apply ss a)) = shape0 (b_block_idx a) /\
  shape1 (b_block_idx (fold_left block_store_apply ss a)) = shape1 (b_block_idx a).
Proof.
  apply (fold_left_invariant block_store_apply
           (fun s => shape0 (b_block_dist s) = shape0 (b_block_dist a) /\
                     shape1 (b_block_dist s) = shape1 (b_block_dist a) /\
                     shape0 (b_block_idx s) = shape0 (b_block_idx a) /\
                     shape1 (b_block_idx s) = shape1 (b_block_idx a))).
  - intros s e H. exact H.
  - repeat split; reflexivity.
Qed.

Lemma block_thread_as_stores (cfg : launch_config) (a : block_args) (t : thread) :
  _block_get_nearest_brute_thread cfg a t =
  fold_left block_store_apply
            (block_thread_stores cfg (b_coord1 a) (b_coord2 a) t) a.
Proof.
  unfold _block_get_nearest_brute_thread, block_thread_stores.
  apply (fold_left_flat_map (block_iter cfg t) block_store_apply _
           (fun s => b_coord1 s = b_coord1 a /\ b_coord2 s = b_coord2 a)).
  - intros s e H. exact H.
  - intros s i _ [H1 H2]. unfold block_iter. rewrite H1, H2.
    destruct (_warp_min_reduce_idx_unrolled _ _) as [v idx]. simpl.
    destruct (laneid cfg t =? 0); reflexivity.
  - split; reflexivity.
Qed.

Lemma block_kernel_as_stores (cfg : launch_config) (a : block_args) :
  _block_get_nearest_brute cfg a =
  fold_left block_store_apply
            (flat_map (block_thread_stores cfg (b_coord1 a) (b_coord2 a))
                      (threads cfg)) a.
Proof.
  unfold _block_get_nearest_brute.
  apply (fold_left_flat_map (_block_get_nearest_brute_thread cfg)
           block_store_apply _
           (fun s => b_coord1 s = b_coord1 a /\ b_coord2 s = b_coord2 a)).
  - intros s e H. exact H.
  - intros s t _ [H1 H2]. rewrite block_thread_as_stores, H1, H2. reflexivity.
  - split; reflexivity.
Qed.

(** The cell [(i, c)] after a sequence of stores that all write the same
    pair [p] there. *)
Lemma block_stores_cell (i c : N) (p : f32 * N) (ss : list block_store) :
  forall a,
  (forall s, In s ss -> block_hits i c s = true -> (bs_dist s, bs_idx s) = p) ->
  at2 (b_block_dist (fold_left block_store_apply ss a)) i c =
    (if existsb (block_hits i c) ss then fst p else at2 (b_block_dist a) i c) /\
  at2 (b_block_idx (fold_left block_store_apply ss a)) i c =
    (if existsb (block_hits i c) ss then to_uint32 (snd p)
     else at2 (b_block_idx a) i c).
Proof.
  induction ss as [| s ss IH]; simpl; intros a Hp.
  - split; reflexivity.
  - destruct (IH (block_store_apply a s)) as [Hd Hi].
    { intros s' Hin. apply Hp. now right. }
    rewrite Hd, Hi. clear Hd Hi IH.
    destruct (existsb (block_hits i c) ss).
    + rewrite orb_true_r. split; reflexivity.
    + rewrite orb_false_r.
      destruct (block_hits i c s) eqn:E.
      * specialize (Hp s (or_introl eq_refl) E). rewrite <- Hp.
        unfold block_hits in E. simpl. rewrite E. split; reflexivity.
      * unfold block_hits in E. simpl. rewrite E. split; reflexivity.
Qed.

End Phase1.

Section Phase1Rows.

Context {libm : LibDevice}.

Variable cfg : launch_config.
Hypothesis rows : warp_rows cfg.
Variables coord1 coord2 : array2 f32.

Lemma gridsize_y_pos (t : thread) : in_grid cfg t -> 0 < gridsize_y cfg.
Proof. unfold in_grid, gridsize_y. intros H. nia. Qed.

(** What a store of Phase 1 is: issued by a thread with [threadIdx.x = 0],
    on a row of its grid-stride loop and on the column of its block,
    with the pair lane 0 has after the shuffles. *)
Lemma block_store_inv (t : thread) (s : block_store) :
  in_grid cfg t ->
  In s (block_thread_stores cfg coord1 coord2 t) ->
  threadIdx_x t = 0 /\
  bs_col s = blockIdx_x t /\
  (exists k, bs_row s = grid_y cfg t + k * gridsize_y cfg) /\
  bs_row s < shape0 coord2 /\
  (bs_dist s, bs_idx s) =
    block_winner (gridDim_x cfg) coord1 coord2 (bs_row s) (bs_col s).
Proof.
  intros Ht Hs. unfold block_thread_stores in Hs.
  apply in_flat_map in Hs. destruct Hs as [i [Hi Hs]].
  apply (py_range_In _ _ _ _ (gridsize_y_pos t Ht)) in Hi.
  destruct Hi as [k [Hk Hlt]].
  pose proof (laneid_is_threadIdx_x cfg rows t Ht) as Hlane.
  destruct (laneid cfg t =? 0) eqn:E; [| destruct Hs].
  apply N.eqb_eq in E. destruct Hs as [Hs | []]. subst s.
  cbn [bs_row bs_col bs_dist bs_idx].
  split; [congruence |]. split; [reflexivity |].
  split; [exists k; exact Hk |]. split; [exact Hlt |].
  rewrite <- surjective_pairing. rewrite E. unfold block_winner.
  apply warp_reduce_ext; [| reflexivity].
  intros l Hl. unfold block_regs.
  rewrite (grid_x_lane cfg rows t Ht l Hl).
  unfold gridsize_x. rewrite rows. reflexivity.
Qed.

(** Every cell [(i, c)] with [i] an observation and [c] a block column
    has a thread that stores to it. *)
Lemma block_store_exists (i c : N) :
  0 < gridDim_y cfg -> 0 < blockDim_y cfg ->
  i < shape0 coord2 -> c < gridDim_x cfg ->
  exists t s, in_grid cfg t /\ In s (block_thread_stores cfg coord1 coord2 t) /\
              bs_row s = i /\ bs_col s = c.
Proof.
  intros Hgy Hby Hi Hc.
  set (sy := gridsize_y cfg).
  assert (Hsy : 0 < sy) by (unfold sy, gridsize_y; nia).
  set (y := i mod sy).
  assert (Hy : y < sy) by (apply N.mod_lt; lia).
  pose (t := Thread c (y / blockDim_y cfg) 0 (y mod blockDim_y cfg)).
  assert (Ht : in_grid cfg t).
  { unfold in_grid, t. simpl. split; [exact Hc |]. split.
    - apply N.Div0.div_lt_upper_bound. exact Hy.
    - split; [rewrite rows; reflexivity | apply N.mod_lt; lia]. }
  assert (Hgy' : grid_y cfg t = y).
  { unfold grid_y, t. simpl.
    pose proof (N.div_mod y (blockDim_y cfg) ltac:(lia)). lia. }
  exists t.
  exists (Block_store i c
            (fst (_warp_min_reduce_idx_unrolled
                    (block_regs cfg coord1 coord2 t i) (laneid cfg t)))
            (snd (_warp_min_reduce_idx_unrolled
                    (block_regs cfg coord1 coord2 t i) (laneid cfg t)))).
  split; [exact Ht |]. split; [| split; reflexivity].
  unfold block_thread_stores. apply in_flat_map. exists i. split.
  - apply py_range_In; [exact Hsy |]. exists (i / sy). split; [| exact Hi].
    rewrite Hgy'. unfold y.
    pose proof (N.div_mod i sy ltac:(lia)). lia.
  - rewrite (laneid_is_threadIdx_x cfg rows t Ht). unfold t.
    cbn [threadIdx_x]. rewrite N.eqb_refl. left. reflexivity.
Qed.

(** The block arrays after Phase 1. *)
Lemma block_kernel_cells (a : block_args) :
  b_coord1 a = coord1 -> b_coord2 a = coord2 ->
  0 < gridDim_y cfg -> 0 < blockDim_y cfg ->
  forall i c,
    (i < shape0 coord2 /\ c < gridDim_x cfg ->
     at2 (b_block_dist (_block_get_nearest_brute cfg a)) i c =
       fst (block_winner (gridDim_x cfg) coord1 coord2 i c) /\
     at2 (b_block_idx (_block_get_nearest_brute cfg a)) i c =
       to_uint32 (snd (block_winner (gridDim_x cfg) coord1 coord2 i c))) /\
    (~ (i < shape0 coord2 /\ c < gridDim_x cfg) ->
     at2 (b_block_dist (_block_get_nearest_brute cfg a)) i c =
       at2 (b_block_dist a) i c /\
     at2 (b_block_idx (_block_get_nearest_brute cfg a)) i c =
       at2 (b_block_idx a) i c).
Proof.
  intros E1 E2 Hgy Hby i c.
  rewrite block_kernel_as_stores, E1, E2.
  set (ss := flat_map (block_thread_stores cfg coord1 coord2) (threads cfg)).
  assert (Hinv : forall s, In s ss -> block_hits i c s = true ->
                 (i < shape0 coord2 /\ c < gridDim_x cfg) /\
                 (bs_dist s, bs_idx s) =
                   block_winner (gridDim_x cfg) coord1 coord2 i c).
  { intros s Hs Hh. unfold ss in Hs. apply in_flat_map in Hs.
    destruct Hs as [t [Ht Hs]]. apply threads_In in Ht.
    destruct (block_store_inv t s Ht Hs) as [_ [Hcol [_ [Hrow Hp]]]].
    unfold block_hits in Hh. apply andb_true_iff in Hh.
    destruct Hh as [Hr Hc]. apply N.eqb_eq in Hr, Hc. subst i c.
    split; [| exact Hp]. split; [exact Hrow |].
    rewrite Hcol. apply Ht. }
  destruct (block_stores_cell i c
              (block_winner (gridDim_x cfg) coord1 coord2 i c) ss a)
    as [Hd Hi].
  { intros s Hs Hh. apply (Hinv s Hs Hh). }
  rewrite Hd, Hi. clear Hd Hi.
  split.
  - intros [Hi Hc].
    destruct (block_store_exists i c Hgy Hby Hi Hc) as [t [s [Ht [Hs [Hr Hcol]]]]].
    assert (Hex : existsb (block_hits i c) ss = true).
    { apply existsb_exists. exists s. split.
      - unfold ss. apply in_flat_map. exists t. split; [| exact Hs].
        apply threads_In, Ht.
      - unfold block_hits. rewrite Hr, Hcol, !N.eqb_refl. reflexivity. }
    rewrite Hex. split; reflexivity.
  - intros Hout.
    destruct (existsb (block_hits i c) ss) eqn:Hex; [| split; reflexivity].
    apply existsb_exists in Hex. destruct Hex as [s [Hs Hh]].
    exfalso. apply Hout. apply (Hinv s Hs Hh).
Qed.

End Phase1Rows.

Section Phase2.

Context {libm : LibDevice}.

Lemma global_stores_frame (ss : list global_store) (a : global_args) :
  g_block_dist (fold_left global_store_apply ss a) = g_block_dist a /\
  g_block_idx (fold_left global_store_apply ss a) = g_block_idx a /\
  len (g_out_dist (fold_left global_store_apply ss a)) = len (g_out_dist a) /\
  len (g_out_idx (fold_left global_store_apply ss a)) = len (g_out_idx a).
Proof.
  apply (fold_left_invariant global_store_apply
           (fun s => g_block_dist s = g_block_dist a /\
                     g_block_idx s = g_block_idx a /\
                     len (g_out_dist s) = len (g_out_dist a) /\
                     len (g_out_idx s) = len (g_out_idx a))).
  - intros s e H. exact H.
  - repeat split; reflexivity.
Qed.

Lemma global_thread_as_stores (cfg : launch_config) (a : global_args) (t : thread) :
  _global_get_nearest_brute_thread cfg a t =
  fold_left global_store_apply
    (global_thread_stores cfg (g_block_dist a) (g_block_idx a)
                          (len (g_out_dist a)) t) a.
Proof.
  unfold _global_get_nearest_brute_thread, global_thread_stores.
  apply (fold_left_flat_map (global_iter cfg t) global_store_apply _
           (fun s => g_block_dist s = g_block_dist a /\
                     g_block_idx s = g_block_idx a)).
  - intros s e H. exact H.
  - intros s i _ [H1 H2]. unfold global_iter. rewrite H1, H2.
    destruct (_warp_min_reduce_idx_unrolled _ _) as [v idx]. simpl.
    destruct (laneid cfg t =? 0); reflexivity.
  - split; reflexivity.
Qed.

Lemma global_kernel_as_stores (cfg : launch_config) (a : global_args) :
  _global_get_nearest_brute cfg a =
  fold_left global_store_apply
    (flat_map (global_thread_stores cfg (g_block_dist a) (g_block_idx a)
                                    (len (g_out_dist a)))
              (threads cfg)) a.
Proof.
  unfold _global_get_nearest_brute.
  apply (fold_left_flat_map (_global_get_nearest_brute_thread cfg)
           global_store_apply _
           (fun s => g_block_dist s = g_block_dist a /\
                     g_block_idx s = g_block_idx a /\
                     len (g_out_dist s) = len (g_out_dist a))).
  - intros s e H. exact H.
  - intros s t _ [H1 [H2 H3]].
    rewrite global_thread_as_stores, H1, H2, H3. reflexivity.
  - repeat split; reflexivity.
Qed.

Lemma global_stores_cell (i : N) (p : f32 * N) (ss : list global_store) :
  forall a,
  (forall s, In s ss -> global_hits i s = true -> (gs_dist s, gs_idx s) = p) ->
  at1 (g_out_dist (fold_left global_store_apply ss a)) i =
    (if existsb (global_hits i) ss then fst p else at1 (g_out_dist a) i) /\
  at1 (g_out_idx (fold_left global_store_apply ss a)) i =
    (if existsb (global_hits i) ss then to_uint32 (snd p)
     else at1 (g_out_idx a) i).
Proof.
  induction ss as [| s ss IH]; simpl; intros a Hp.
  - split; reflexivity.
  - destruct (IH (global_store_apply a s)) as [Hd Hi].
    { intros s' Hin. apply Hp. now right. }
    rewrite Hd, Hi. clear Hd Hi IH.
    destruct (existsb (global_hits i) ss).
    + rewrite orb_true_r. split; reflexivity.
    + rewrite orb_false_r.
      destruct (global_hits i s) eqn:E.
      * specialize (Hp s (or_introl eq_refl) E). rewrite <- Hp.
        unfold global_hits in E. simpl. rewrite E. split; reflexivity.
      * unfold global_hits in E. simpl. rewrite E. split; reflexivity.
Qed.

Lemma py_range_lane (l : N) :
  l < WARP_SIZE -> py_range l WARP_SIZE WARP_SIZE = [l].
Proof.
  unfold WARP_SIZE, py_range. intros Hl.
  replace ((32 - l + (32 - 1)) / 32) with 1 by lia.
  simpl. f_equal. lia.
Qed.

Variable cfg : launch_config.
Hypothesis rows : warp_rows cfg.
Hypothesis one_column : gridDim_x cfg = 1.
Variable block_dist : array2 f32.
Variable block_idx : array2 N.
Hypothesis partial_columns : shape1 block_idx = WARP_SIZE.
Variable n_out : N.

(** With a grid one block wide and blocks one warp wide, lane [l] reads
    column [l] of its row once. *)
Lemma global_reads_lane (t : thread) (i l : N) :
  in_grid cfg t -> l < WARP_SIZE ->
  global_reads cfg (shape1 block_idx) (lane_of_warp cfg t l) i = [(i, l)].
Proof.
  intros Ht Hl. unfold global_reads.
  rewrite (grid_x_lane cfg rows t Ht l Hl).
  rewrite (lane_of_warp_rows cfg rows t Ht l Hl). simpl.
  assert (Hbx : blockIdx_x t = 0) by (destruct Ht as [H _]; lia).
  unfold gridsize_x. rewrite Hbx, rows, one_column, partial_columns.
  replace (l + 0 * WARP_SIZE) with l by lia.
  replace (WARP_SIZE * 1) with WARP_SIZE by reflexivity.
  rewrite (py_range_lane l Hl). reflexivity.
Qed.

Lemma global_store_inv (t : thread) (s : global_store) :
  in_grid cfg t ->
  In s (global_thread_stores cfg block_dist block_idx n_out t) ->
  gs_row s < n_out /\
  (gs_dist s, gs_idx s) = global_winner block_dist block_idx (gs_row s).
Proof.
  intros Ht Hs. unfold global_thread_stores in Hs.
  apply in_flat_map in Hs. destruct Hs as [i [Hi Hs]].
  apply (py_range_In _ _ _ _ (gridsize_y_pos cfg t Ht)) in Hi.
  destruct Hi as [k [Hk Hlt]].
  destruct (laneid cfg t =? 0) eqn:E; [| destruct Hs].
  apply N.eqb_eq in E. destruct Hs as [Hs | []]. subst s.
  cbn [gs_row gs_dist gs_idx].
  split; [exact Hlt |].
  rewrite <- surjective_pairing. rewrite E. unfold global_winner.
  apply warp_reduce_ext; [| reflexivity].
  intros l Hl. unfold global_regs, global_scan.
  rewrite (global_reads_lane t i l Ht Hl). reflexivity.
Qed.

Lemma global_store_exists (i : N) :
  0 < gridDim_y cfg -> 0 < blockDim_y cfg -> i < n_out ->
  exists t s, in_grid cfg t /\
              In s (global_thread_stores cfg block_dist block_idx n_out t) /\
              gs_row s = i.
Proof.
  intros Hgy Hby Hi.
  set (sy := gridsize_y cfg).
  assert (Hsy : 0 < sy) by (unfold sy, gridsize_y; nia).
  set (y := i mod sy).
  assert (Hy : y < sy) by (apply N.mod_lt; lia).
  pose (t := Thread 0 (y / blockDim_y cfg) 0 (y mod blockDim_y cfg)).
  assert (Ht : in_grid cfg t).
  { unfold in_grid, t. simpl. split; [lia |]. split.
    - apply N.Div0.div_lt_upper_bound. exact Hy.
    - split; [rewrite rows; reflexivity | apply N.mod_lt; lia]. }
  assert (Hgy' : grid_y cfg t = y).
  { unfold grid_y, t. simpl.
    pose proof (N.div_mod y (blockDim_y cfg) ltac:(lia)). lia. }
  exists t.
  exists (Global_store i
            (fst (_warp_min_reduce_idx_unrolled
                    (global_regs cfg block_dist block_idx t i) (laneid cfg t)))
            (snd (_warp_min_reduce_idx_unrolled
                    (global_regs cfg block_dist block_idx t i) (laneid cfg t)))).
  split; [exact Ht |]. split; [| reflexivity].
  unfold global_thread_stores. apply in_flat_map. exists i. split.
  - apply py_range_In; [exact Hsy |]. exists (i / sy). split; [| exact Hi].
    rewrite Hgy'. unfold y.
    pose proof (N.div_mod i sy ltac:(lia)). lia.
  - rewrite (laneid_is_threadIdx_x cfg rows t Ht). unfold t.
    cbn [threadIdx_x]. rewrite N.eqb_refl. left. reflexivity.
Qed.

(** The output arrays after Phase 2. *)
Lemma global_kernel_cells (a : global_args) :
  g_block_dist a = block_dist -> g_block_idx a = block_idx ->
  len (g_out_dist a) = n_out ->
  0 < gridDim_y cfg -> 0 < blockDim_y cfg ->
  forall i, i < n_out ->
    at1 (g_out_dist (_global_get_nearest_brute cfg a)) i =
      fst (global_winner block_dist block_idx i) /\
    at1 (g_out_idx (_global_get_nearest_brute cfg a)) i =
      to_uint32 (snd (global_winner block_dist block_idx i)).
Proof.
  intros E1 E2 E3 Hgy Hby i Hi.
  rewrite global_kernel_as_stores, E1, E2, E3.
  set (ss := flat_map (global_thread_stores cfg block_dist block_idx n_out)
                      (threads cfg)).
  destruct (global_stores_cell i (global_winner block_dist block_idx i) ss a)
    as [Hd Hx].
  { intros s Hs Hh. unfold ss in Hs. apply in_flat_map in Hs.
    destruct Hs as [t [Ht Hs]]. apply threads_In in Ht.
    destruct (global_store_inv t s Ht Hs) as [_ Hp].
    unfold global_hits in Hh. apply N.eqb_eq in Hh. subst i. exact Hp. }
  rewrite Hd, Hx. clear Hd Hx.
  destruct (global_store_exists i Hgy Hby Hi) as [t [s [Ht [Hs Hr]]]].
  assert (Hex : existsb (global_hits i) ss = true).
  { apply existsb_exists. exists s. split.
    - unfold ss. apply in_flat_map. exists t. split; [| exact Hs].
      apply threads_In, Ht.
    - unfold global_hits. rewrite Hr, N.eqb_refl. reflexivity. }
  rewrite Hex. split; reflexivity.
Qed.

End Phase2.

(* ================================================================= *)
(** ** The driver *)

Section DriverFacts.

Context {libm : LibDevice}.

Lemma global_winner_ext (bd bd' : array2 f32) (bi bi' : array2 N) (i : N) :
  (forall l, l < WARP_SIZE ->
     at2 bd i l = at2 bd' i l /\ at2 bi i l = at2 bi' i l) ->
  global_winner bd bi i = global_winner bd' bi' i.
Proof.
  intros H. unfold global_winner.
  apply warp_reduce_ext; [| reflexivity].
  intros l Hl. destruct (H l Hl) as [Hd Hi].
  unfold global_scan_body. simpl. rewrite Hd, Hi. reflexivity.
Qed.

(** The host's calls, and what the device has done when the driver
    returns: the two kernels, in the order of their launch, nothing left
    on the stream. *)
Lemma numba_cuda_solve_with_run (cfg1 cfg2 : launch_config) (u : uninitialised)
    (obs ref : array2 f32) :
  let g := numba_cuda_solve_with cfg1 cfg2 u obs ref in
  trace g = [Ev_launch block_min_reduce cfg1;
             Ev_launch global_min_reduce cfg2; Ev_synchronize] /\
  stream g = [] /\
  memory g = run_kernel (run_kernel (fresh_memory u obs ref)
                                    (block_min_reduce, cfg1))
                        (global_min_reduce, cfg2).
Proof. repeat split. Qed.

Lemma numba_cuda_solve_with_returns (cfg1 cfg2 : launch_config)
    (u : uninitialised) (obs ref : array2 f32) :
  0 < gridDim_y cfg1 -> 0 < blockDim_y cfg1 -> warp_rows cfg1 ->
  phase2_shape cfg2 ->
  forall i, i < shape0 obs ->
    returned_dist (numba_cuda_solve_with cfg1 cfg2 u obs ref) i =
      fst (global_winner (b_block_dist (partials cfg1 u obs ref))
                         (b_block_idx (partials cfg1 u obs ref)) i) /\
    returned_idx (numba_cuda_solve_with cfg1 cfg2 u obs ref) i =
      to_uint32 (snd (global_winner (b_block_dist (partials cfg1 u obs ref))
                                    (b_block_idx (partials cfg1 u obs ref)) i)).
Proof.
  intros Hgy1 Hby1 Hrows1 [Hbx2 [Hgx2 [Hgy2 Hby2]]] i Hi.
  unfold returned_dist, returned_idx.
  destruct (numba_cuda_solve_with_run cfg1 cfg2 u obs ref) as [_ [_ Hm]].
  rewrite Hm. unfold run_kernel. cbn [fst snd].
  fold (partials cfg1 u obs ref).
  cbn [d_out_dist d_out_idx d_block_dist d_block_idx].
  apply (global_kernel_cells cfg2 Hbx2 Hgx2 _ _) with (n_out := shape0 obs);
    try reflexivity; try assumption.
  unfold partials. rewrite block_kernel_as_stores.
  apply block_stores_shape.
Qed.

End DriverFacts.

Section DriverResults.

Context {libm : LibDevice}.

Lemma py_range_empty (start step : N) : 0 < step -> py_range start 0 step = [].
Proof.
  intros H. unfold py_range.
  replace ((0 - start + (step - 1)) / step) with 0; [reflexivity |].
  symmetry. apply N.div_small. lia.
Qed.

(** With no reference point every lane keeps the seed of Phase 1. *)
Lemma block_winner_empty (gdx : N) (coord1 coord2 : array2 f32) (i c : N) :
  0 < gdx -> shape0 coord1 = 0 ->
  block_winner gdx coord1 coord2 i c = (seed_1e11, 0).
Proof.
  intros Hg H0. unfold block_winner. apply warp_reduce_const.
  intros l _. unfold block_scan. rewrite H0, py_range_empty; [reflexivity |].
  unfold WARP_SIZE. lia.
Qed.

(** The results of two Phase 1 launches of the expected shape agree on
    the 32 columns of the row of an observation, whatever the block
    arrays held before either launch. *)
Lemma partials_shape_invariant (cfg1 cfg1' : launch_config)
    (u u' : uninitialised) (obs ref : array2 f32) (i c : N) :
  phase1_shape cfg1 -> phase1_shape cfg1' -> i < shape0 obs -> c < 32 ->
  at2 (b_block_dist (partials cfg1 u obs ref)) i c =
    at2 (b_block_dist (partials cfg1' u' obs ref)) i c /\
  at2 (b_block_idx (partials cfg1 u obs ref)) i c =
    at2 (b_block_idx (partials cfg1' u' obs ref)) i c.
Proof.
  intros [Hb [Hg [Hgy Hby]]] [Hb' [Hg' [Hgy' Hby']]] Hi Hc. unfold partials.
  destruct (block_kernel_cells cfg1 Hb ref obs
              (Block_args ref obs (Array2 (shape0 obs) 32 (u_block_idx u))
                          (Array2 (shape0 obs) 32 (u_block_dist u)))
              eq_refl eq_refl Hgy Hby i c) as [Hin _].
  destruct (block_kernel_cells cfg1' Hb' ref obs
              (Block_args ref obs (Array2 (shape0 obs) 32 (u_block_idx u'))
                          (Array2 (shape0 obs) 32 (u_block_dist u')))
              eq_refl eq_refl Hgy' Hby' i c) as [Hin' _].
  rewrite Hg in Hin. rewrite Hg' in Hin'.
  destruct (Hin (conj Hi Hc)) as [E1 E2].
  destruct (Hin' (conj Hi Hc)) as [E1' E2'].
  split; congruence.
Qed.

End DriverResults.

Example solve_wide :
  returned_idx (@numba_cuda_solve_with taylor0 wide_config narrow_config
                  stale origin origin) 0 = 0 /\
  returned_dist (@numba_cuda_solve_with taylor0 wide_config narrow_config
                   stale origin origin) 0 = zero.
Proof. vm_compute. split; reflexivity. Qed.

Example solve_narrow :
  returned_idx (@numba_cuda_solve_with taylor0 narrow_config narrow_config
                  stale origin origin) 0 = 7 /\
  returned_dist (@numba_cuda_solve_with taylor0 narrow_config narrow_config
                   stale origin origin) 0 = SFopp one.
Proof. vm_compute. split; reflexivity. Qed.

(** Grid-stride loops cover their index space whatever the (positive)
    extents of the launch. *)
Lemma grid_stride_covers_positive (cfg : launch_config) (rows cols : N) :
  0 < gridDim_x cfg -> 0 < gridDim_y cfg ->
  0 < blockDim_x cfg -> 0 < blockDim_y cfg ->
  grid_stride_covers cfg rows cols.
Proof.
  intros Hgx Hgy Hbx Hby i j Hi Hj.
  set (sx := gridsize_x cfg). set (sy := gridsize_y cfg).
  assert (Hsx : 0 < sx) by (unfold sx, gridsize_x; nia).
  assert (Hsy : 0 < sy) by (unfold sy, gridsize_y; nia).
  set (x := j mod sx). set (y := i mod sy).
  assert (Hx : x < sx) by (apply N.mod_lt; lia).
  assert (Hy : y < sy) by (apply N.mod_lt; lia).
  exists (Thread (x / blockDim_x cfg) (y / blockDim_y cfg)
                 (x mod blockDim_x cfg) (y mod blockDim_y cfg)).
  split; [| split].
  - unfold in_grid. simpl. repeat split.
    + apply N.Div0.div_lt_upper_bound. exact Hx.
    + apply N.Div0.div_lt_upper_bound. exact Hy.
    + apply N.mod_lt. lia.
    + apply N.mod_lt. lia.
  - apply py_range_In; [exact Hsy |]. exists (i / sy). split; [| exact Hi].
    unfold grid_y. simpl.
    pose proof (N.div_mod y (blockDim_y cfg) ltac:(lia)).
    pose proof (N.div_mod i sy ltac:(lia)). fold y in H0. lia.
  - apply py_range_In; [exact Hsx |]. exists (j / sx). split; [| exact Hj].
    unfold grid_x. simpl.
    pose proof (N.div_mod x (blockDim_x cfg) ltac:(lia)).
    pose proof (N.div_mod j sx ltac:(lia)). fold x in H0. lia.
Qed.

(** C2, as stated, fails: the wide and the narrow launch of Phase 1 both
    cover the one observation and the one reference point, Phase 2 is
    launched the same way and covers the row of 32 partial results, yet
    the wide launch returns index 0 at distance 0 and the narrow one
    returns what the fresh block arrays happened to hold in the columns
    it never writes. *)
Lemma solve_depends_on_launch :
  grid_stride_covers wide_config 1 1 /\
  grid_stride_covers narrow_config 1 1 /\
  grid_stride_covers narrow_config 1 32 /\
  returned_idx (@numba_cuda_solve_with taylor0 wide_config narrow_config
                  stale origin origin) 0 <>
  returned_idx (@numba_cuda_solve_with taylor0 narrow_config narrow_config
                  stale origin origin) 0 /\
  returned_dist (@numba_cuda_solve_with taylor0 wide_config narrow_config
                   stale origin origin) 0 <>
  returned_dist (@numba_cuda_solve_with taylor0 narrow_config narrow_config
                   stale origin origin) 0.
Proof.
  split; [apply grid_stride_covers_positive; reflexivity |].
  split; [apply grid_stride_covers_positive; reflexivity |].
  split; [apply grid_stride_covers_positive; reflexivity |].
  destruct solve_wide as [-> ->]. destruct solve_narrow as [-> ->].
  split; discriminate.
Qed.

(** C2, amended: as long as blocks stay one warp (32 threads) wide, the
    Phase 1 grid stays 32 blocks wide and the Phase 2 grid one block
    wide, the numbers of blocks and of threads along [y] change neither
    the index nor the distance returned for any observation, and neither
    does what the freshly allocated buffers of either run happened to
    hold ([u] for the one, [u'] for the other). *)
Theorem solve_invariant_in_y (libm : LibDevice)
    (cfg1 cfg1' cfg2 cfg2' : launch_config)
    (u u' : uninitialised) (obs ref : array2 f32) (i : N) :
  phase1_shape cfg1 -> phase1_shape cfg1' ->
  phase2_shape cfg2 -> phase2_shape cfg2' ->
  i < shape0 obs ->
  returned_idx (numba_cuda_solve_with cfg1 cfg2 u obs ref) i =
    returned_idx (numba_cuda_solve_with cfg1' cfg2' u' obs ref) i /\
  returned_dist (numba_cuda_solve_with cfg1 cfg2 u obs ref) i =
    returned_dist (numba_cuda_solve_with cfg1' cfg2' u' obs ref) i.
Proof.
  intros H1 H1' H2 H2' Hi.
  destruct (numba_cuda_solve_with_returns cfg1 cfg2 u obs ref
              (proj1 (proj2 (proj2 H1))) (proj2 (proj2 (proj2 H1)))
              (proj1 H1) H2 i Hi) as [Hd Hx].
  destruct (numba_cuda_solve_with_returns cfg1' cfg2' u' obs ref
              (proj1 (proj2 (proj2 H1'))) (proj2 (proj2 (proj2 H1')))
              (proj1 H1') H2' i Hi) as [Hd' Hx'].
  rewrite Hd, Hx, Hd', Hx'.
  assert (E : global_winner (b_block_dist (partials cfg1 u obs ref))
                            (b_block_idx (partials cfg1 u obs ref)) i =
              global_winner (b_block_dist (partials cfg1' u' obs ref))
                            (b_block_idx (partials cfg1' u' obs ref)) i).
  { apply global_winner_ext. intros l Hl.
    apply partials_shape_invariant; assumption. }
  exact (conj (f_equal (fun w => to_uint32 (snd w)) E) (f_equal fst E)).
Qed.

Lemma solve_invariant_in_y_witness :
  returned_idx (@numba_cuda_solve_with taylor0 wide_config narrow_config
                  stale origin origin) 0 =
    returned_idx (@numba_cuda_solve_with taylor0 (Launch_config 32 128 32 16)
                    (Launch_config 1 2560 32 16) zeroed origin origin) 0 /\
  returned_dist (@numba_cuda_solve_with taylor0 wide_config narrow_config
                   stale origin origin) 0 =
    returned_dist (@numba_cuda_solve_with taylor0 (Launch_config 32 128 32 16)
                     (Launch_config 1 2560 32 16) zeroed origin origin) 0.
Proof.
  apply (solve_invariant_in_y taylor0 wide_config (Launch_config 32 128 32 16)
           narrow_config (Launch_config 1 2560 32 16) stale zeroed
           origin origin 0);
    unfold phase1_shape, phase2_shape; simpl; repeat split; reflexivity.
Defined.

Lemma phase1_config_shape : phase1_shape phase1_config.
Proof. unfold phase1_shape, phase1_config. simpl. repeat split; reflexivity. Qed.

Lemma phase2_config_shape : phase2_shape phase2_config.
Proof. unfold phase2_shape, phase2_config. simpl. repeat split; reflexivity. Qed.

(** C7: with an empty reference set the driver returns, for every
    observation, the seed [float32(1e11)] of Phase 1 as distance and 0 as
    index. *)
Theorem solve_empty_reference_set (libm : LibDevice) (u : uninitialised)
    (obs ref : array2 f32) (i : N) :
  shape0 ref = 0 -> i < shape0 obs ->
  returned_dist (numba_cuda_solve u obs ref) i = seed_1e11 /\
  returned_idx (numba_cuda_solve u obs ref) i = 0.
Proof.
  intros Href Hi. unfold numba_cuda_solve.
  destruct phase1_config_shape as [Hb [Hg [Hgy Hby]]].
  destruct (numba_cuda_solve_with_returns phase1_config phase2_config u obs ref
              Hgy Hby Hb phase2_config_shape i Hi) as [Hd Hx].
  rewrite Hd, Hx. clear Hd Hx.
  assert (Hw : global_winner (b_block_dist (partials phase1_config u obs ref))
                 (b_block_idx (partials phase1_config u obs ref)) i
               = (seed_1e11, 0)).
  { unfold global_winner. apply warp_reduce_const. intros l Hl.
    unfold partials.
    set (a := Block_args ref obs _ _).
    destruct (block_kernel_cells phase1_config Hb ref obs a eq_refl eq_refl
                Hgy Hby i l) as [Hin _].
    destruct Hin as [Hbd Hbi]; [split; [exact Hi | exact Hl] |].
    unfold global_scan_body. cbn [fst snd]. rewrite Hbd, Hbi.
    rewrite (block_winner_empty _ ref obs i l) by (reflexivity || exact Href).
    reflexivity. }
  rewrite Hw. split; reflexivity.
Qed.

Lemma solve_empty_reference_set_witness :
  returned_dist (@numba_cuda_solve taylor0 stale origin no_points) 0
    = seed_1e11 /\
  returned_idx (@numba_cuda_solve taylor0 stale origin no_points) 0 = 0.
Proof.
  apply (solve_empty_reference_set taylor0 stale origin no_points 0);
    reflexivity.
Defined.

(** C4, as stated, fails: in the log of the driver the launch of
    [global_min_reduce] comes while the launch of [block_min_reduce] is
    still outstanding; no synchronisation separates the two. *)
Lemma solve_no_barrier_between_phases :
  phase2_after_barrier false
    (trace (@numba_cuda_solve taylor0 stale origin origin)) = false.
Proof.
  unfold numba_cuda_solve.
  destruct (@numba_cuda_solve_with_run taylor0 phase1_config phase2_config
              stale origin origin) as [-> _].
  reflexivity.
Qed.

(** C4, amended: the driver launches [block_min_reduce] and then
    [global_min_reduce] on the same stream with no synchronisation in
    between; the single blocking synchronisation comes last, after the
    launch of Phase 2 and before the results are returned; by then the
    stream has run both kernels in the order of their launch, Phase 2 on
    the memory Phase 1 has left, and nothing is outstanding. *)
Theorem solve_stream_order (libm : LibDevice) (u : uninitialised)
    (obs ref : array2 f32) :
  let g := numba_cuda_solve u obs ref in
  trace g = [Ev_launch block_min_reduce phase1_config;
             Ev_launch global_min_reduce phase2_config;
             Ev_synchronize] /\
  ends_synchronized (trace g) = true /\
  stream g = [] /\
  memory g = run_kernel (run_kernel (fresh_memory u obs ref)
                                    (block_min_reduce, phase1_config))
                        (global_min_reduce, phase2_config).
Proof.
  intros g. unfold g, numba_cuda_solve.
  destruct (numba_cuda_solve_with_run phase1_config phase2_config u obs ref)
    as [Ht [Hs Hm]].
  rewrite Ht, Hs, Hm. repeat split; reflexivity.
Qed.

(** The driver hands the reference and the observation arrays back as it
    received them. *)
Lemma solve_inputs_unchanged (libm : LibDevice) (u : uninitialised)
    (obs ref : array2 f32) :
  d_ref (memory (numba_cuda_solve u obs ref)) = ref /\
  d_obs (memory (numba_cuda_solve u obs ref)) = obs.
Proof.
  unfold numba_cuda_solve.
  destruct (numba_cuda_solve_with_run phase1_config phase2_config u obs ref)
    as [_ [_ Hm]].
  rewrite Hm. unfold run_kernel. cbn [fst snd d_ref d_obs].
  rewrite block_kernel_as_stores. apply block_stores_frame.
Qed.

(** C9: under a Phase 1 launch of the driver's shape on the buffers the
    driver allocates, for every observation and reference set and
    whatever the buffers held, every store of the kernel lands on the
    row of an observation and on one of the 32 columns of the block
    arrays.  After the kernel the reference and the observation arrays
    are what they were, and so are the output arrays; the block arrays
    keep their shape, and every cell outside their [N_OBS x 32] extent
    holds what it held: the kernel has written to [block_dist] and
    [block_idx] alone, and inside them. *)
Theorem block_min_reduce_frame (libm : LibDevice) (cfg : launch_config)
    (u : uninitialised) (obs ref : array2 f32) :
  phase1_shape cfg ->
  (forall t s, in_grid cfg t -> In s (block_thread_stores cfg ref obs t) ->
     bs_row s < shape0 obs /\ bs_col s < 32) /\
  d_ref (run_kernel (fresh_memory u obs ref) (block_min_reduce, cfg)) = ref /\
  d_obs (run_kernel (fresh_memory u obs ref) (block_min_reduce, cfg)) = obs /\
  d_out_dist (run_kernel (fresh_memory u obs ref) (block_min_reduce, cfg)) =
    Array1 (shape0 obs) (u_out_dist u) /\
  d_out_idx (run_kernel (fresh_memory u obs ref) (block_min_reduce, cfg)) =
    Array1 (shape0 obs) (u_out_idx u) /\
  shape0 (d_block_dist (run_kernel (fresh_memory u obs ref)
                                   (block_min_reduce, cfg))) = shape0 obs /\
  shape1 (d_block_dist (run_kernel (fresh_memory u obs ref)
                                   (block_min_reduce, cfg))) = 32 /\
  shape0 (d_block_idx (run_kernel (fresh_memory u obs ref)
                                  (block_min_reduce, cfg))) = shape0 obs /\
  shape1 (d_block_idx (run_kernel (fresh_memory u obs ref)
                                  (block_min_reduce, cfg))) = 32 /\
  forall i c, ~ (i < shape0 obs /\ c < 32) ->
    at2 (d_block_dist (run_kernel (fresh_memory u obs ref)
                                  (block_min_reduce, cfg))) i c =
      u_block_dist u i c /\
    at2 (d_block_idx (run_kernel (fresh_memory u obs ref)
                                 (block_min_reduce, cfg))) i c =
      u_block_idx u i c.
Proof.
  intros [Hb [Hg [Hgy Hby]]].
  unfold run_kernel, fresh_memory. cbn [fst snd].
  cbn [d_ref d_obs d_block_idx d_block_dist d_out_dist d_out_idx].
  set (a := Block_args ref obs _ _).
  split.
  { intros t s Ht Hs.
    destruct (block_store_inv cfg Hb ref obs t s Ht Hs) as [_ [Hc [_ [Hr _]]]].
    split; [exact Hr |]. rewrite Hc, <- Hg. apply Ht. }
  destruct (block_stores_frame
              (flat_map (block_thread_stores cfg (b_coord1 a) (b_coord2 a))
                        (threads cfg)) a) as [F1 F2].
  destruct (block_stores_shape
              (flat_map (block_thread_stores cfg (b_coord1 a) (b_coord2 a))
                        (threads cfg)) a) as [S1 [S2 [S3 S4]]].
  rewrite <- block_kernel_as_stores in F1, F2, S1, S2, S3, S4.
  split; [exact F1 |]. split; [exact F2 |].
  split; [reflexivity |]. split; [reflexivity |].
  split; [exact S1 |]. split; [exact S2 |].
  split; [exact S3 |]. split; [exact S4 |].
  intros i c Hout.
  destruct (block_kernel_cells cfg Hb ref obs a eq_refl eq_refl Hgy Hby i c)
    as [_ H].
  apply H. rewrite Hg. exact Hout.
Qed.

Lemma block_min_reduce_frame_witness :
  (forall t s, in_grid phase1_config t ->
     In s (@block_thread_stores taylor0 phase1_config origin origin t) ->
     bs_row s < shape0 origin /\ bs_col s < 32) /\
  d_ref (@run_kernel taylor0 (fresh_memory stale origin origin)
                     (block_min_reduce, phase1_config)) = origin /\
  d_obs (@run_kernel taylor0 (fresh_memory stale origin origin)
                     (block_min_reduce, phase1_config)) = origin /\
  d_out_dist (@run_kernel taylor0 (fresh_memory stale origin origin)
                          (block_min_reduce, phase1_config)) =
    Array1 (shape0 origin) (u_out_dist stale) /\
  d_out_idx (@run_kernel taylor0 (fresh_memory stale origin origin)
                         (block_min_reduce, phase1_config)) =
    Array1 (shape0 origin) (u_out_idx stale) /\
  shape0 (d_block_dist (@run_kernel taylor0 (fresh_memory stale origin origin)
                                    (block_min_reduce, phase1_config))) =
    shape0 origin /\
  shape1 (d_block_dist (@run_kernel taylor0 (fresh_memory stale origin origin)
                                    (block_min_reduce, phase1_config))) = 32 /\
  shape0 (d_block_idx (@run_kernel taylor0 (fresh_memory stale origin origin)
                                   (block_min_reduce, phase1_config))) =
    shape0 origin /\
  shape1 (d_block_idx (@run_kernel taylor0 (fresh_memory stale origin origin)
                                   (block_min_reduce, phase1_config))) = 32 /\
  forall i c, ~ (i < shape0 origin /\ c < 32) ->
    at2 (d_block_dist (@run_kernel taylor0 (fresh_memory stale origin origin)
                                   (block_min_reduce, phase1_config))) i c =
      u_block_dist stale i c /\
    at2 (d_block_idx (@run_kernel taylor0 (fresh_memory stale origin origin)
                                  (block_min_reduce, phase1_config))) i c =
      u_block_idx stale i c.
Proof.
  apply (block_min_reduce_frame taylor0 phase1_config stale origin origin).
  unfold phase1_shape, phase1_config. simpl. repeat split; reflexivity.
Defined.

(* ================================================================= *)
(** ** Who writes and who reads the block arrays *)

Lemma flat_map_singletons {A B : Type} (f : A -> list B) (g : A -> B)
    (xs : list A) :
  (forall x, In x xs -> f x = [g x]) -> flat_map f xs = map g xs.
Proof.
  induction xs as [| x xs IH]; simpl; intros H.
  - reflexivity.
  - rewrite (H x (or_introl eq_refl)). simpl. f_equal.
    apply IH. intros y Hy. apply H. now right.
Qed.

Section HardCodedLaunch.

Context {libm : LibDevice}.
Variables obs ref : array2 f32.

Lemma phase1_stores_in_bounds (t : thread) (s : block_store) :
  in_grid phase1_config t ->
  In s (block_thread_stores phase1_config ref obs t) ->
  bs_row s < shape0 obs /\ bs_col s < 32.
Proof.
  intros Ht Hs.
  destruct (block_store_inv phase1_config eq_refl ref obs t s Ht Hs)
    as [_ [Hc [_ [Hr _]]]].
  split; [exact Hr |]. rewrite Hc. apply Ht.
Qed.

Lemma phase1_writer_unique (t t' : thread) (s s' : block_store) :
  in_grid phase1_config t -> in_grid phase1_config t' ->
  In s (block_thread_stores phase1_config ref obs t) ->
  In s' (block_thread_stores phase1_config ref obs t') ->
  bs_row s = bs_row s' -> bs_col s = bs_col s' -> t = t'.
Proof.
  intros Ht Ht' Hs Hs' Hr Hc.
  destruct (block_store_inv phase1_config eq_refl ref obs t s Ht Hs)
    as [Hx [Hcol [[k Hk] _]]].
  destruct (block_store_inv phase1_config eq_refl ref obs t' s' Ht' Hs')
    as [Hx' [Hcol' [[k' Hk'] _]]].
  destruct t as [bx by_ tx ty]. destruct t' as [bx' by_' tx' ty'].
  unfold in_grid, grid_y, gridsize_y, phase1_config in *. simpl in *.
  assert (Ebx : bx = bx') by congruence.
  assert (Etx : tx = tx') by congruence.
  assert (Ey : ty = ty' /\ by_ = by_') by lia.
  destruct Ey as [Ety Eby]. rewrite Ebx, Etx, Ety, Eby. reflexivity.
Qed.

Lemma phase1_writer_exists (i c : N) :
  i < shape0 obs -> c < 32 ->
  exists t, in_grid phase1_config t /\ laneid phase1_config t = 0 /\
    exists s, In s (block_thread_stores phase1_config ref obs t) /\
              bs_row s = i /\ bs_col s = c.
Proof.
  intros Hi Hc.
  destruct (block_store_exists phase1_config eq_refl ref obs i c
              eq_refl eq_refl Hi Hc) as [t [s [Ht [Hs [Hr Hcol]]]]].
  exists t. split; [exact Ht |]. split.
  - rewrite (laneid_is_threadIdx_x phase1_config eq_refl t Ht).
    apply (block_store_inv phase1_config eq_refl ref obs t s Ht Hs).
  - exists s. auto.
Qed.

Lemma phase2_warp_reads (block_idx : array2 N) (t : thread) (i : N) :
  shape1 block_idx = 32 -> in_grid phase2_config t ->
  flat_map (fun l => global_reads phase2_config (shape1 block_idx)
                       (lane_of_warp phase2_config t l) i) lanes
  = map (fun c => (i, c)) lanes.
Proof.
  intros Hcols Ht. apply flat_map_singletons.
  intros l Hl. apply iota_In in Hl.
  apply (global_reads_lane phase2_config eq_refl eq_refl block_idx Hcols t i l
           Ht Hl).
Qed.

End HardCodedLaunch.

(** C10: under the launch hard-coded in the driver, every store of
    Phase 1 lands on a row of an observation and on one of the 32 columns
    of the block arrays; every such cell is stored to by one thread only,
    which is lane 0 of its warp, and after the kernel the cell holds what
    that thread stored, while every cell outside holds what it held.  In
    Phase 2 the 32 lanes of a warp read, for a row, the columns 0 to 31,
    each once: lane [l] leaves its loop with the content of column [l]
    (or with the seed when that is not below it), and after the kernel
    the output cell of the row holds what lane 0 has after the shuffles
    over these 32 values. *)
Theorem hard_coded_launch_partition (libm : LibDevice) (a : block_args)
    (g : global_args) (i c : N) (w : thread) :
  i < shape0 (b_coord2 a) -> c < 32 ->
  shape1 (g_block_idx g) = 32 -> i < len (g_out_dist g) ->
  in_grid phase2_config w ->
  (forall t s, in_grid phase1_config t ->
     In s (block_thread_stores phase1_config (b_coord1 a) (b_coord2 a) t) ->
     bs_row s < shape0 (b_coord2 a) /\ bs_col s < 32) /\
  (exists t s, in_grid phase1_config t /\ laneid phase1_config t = 0 /\
     In s (block_thread_stores phase1_config (b_coord1 a) (b_coord2 a) t) /\
     bs_row s = i /\ bs_col s = c /\
     (forall t' s', in_grid phase1_config t' ->
        In s' (block_thread_stores phase1_config (b_coord1 a) (b_coord2 a) t') ->
        bs_row s' = i -> bs_col s' = c -> t' = t) /\
     at2 (b_block_dist (_block_get_nearest_brute phase1_config a)) i c =
       bs_dist s /\
     at2 (b_block_idx (_block_get_nearest_brute phase1_config a)) i c =
       to_uint32 (bs_idx s)) /\
  (forall r k, ~ (r < shape0 (b_coord2 a) /\ k < 32) ->
     at2 (b_block_dist (_block_get_nearest_brute phase1_config a)) r k =
       at2 (b_block_dist a) r k /\
     at2 (b_block_idx (_block_get_nearest_brute phase1_config a)) r k =
       at2 (b_block_idx a) r k) /\
  flat_map (fun l => global_reads phase2_config (shape1 (g_block_idx g))
                       (lane_of_warp phase2_config w l) i) lanes
  = map (fun col => (i, col)) lanes /\
  (forall l, l < 32 ->
     global_scan phase2_config (g_block_dist g) (g_block_idx g)
                 (lane_of_warp phase2_config w l) i =
     if lt (at2 (g_block_dist g) i l) seed_1e30
     then (at2 (g_block_dist g) i l, at2 (g_block_idx g) i l)
     else (seed_1e30, 0)) /\
  at1 (g_out_dist (_global_get_nearest_brute phase2_config g)) i =
    fst (_warp_min_reduce_idx_unrolled
           (fun l => if lt (at2 (g_block_dist g) i l) seed_1e30
                     then (at2 (g_block_dist g) i l, at2 (g_block_idx g) i l)
                     else (seed_1e30, 0)) 0) /\
  at1 (g_out_idx (_global_get_nearest_brute phase2_config g)) i =
    to_uint32 (snd (_warp_min_reduce_idx_unrolled
           (fun l => if lt (at2 (g_block_dist g) i l) seed_1e30
                     then (at2 (g_block_dist g) i l, at2 (g_block_idx g) i l)
                     else (seed_1e30, 0)) 0)).
Proof.
  intros Hi Hc Hcols Hout Hw.
  destruct phase1_config_shape as [Hb [Hg [Hgy Hby]]].
  destruct phase2_config_shape as [Hb2 [Hg2 [Hgy2 Hby2]]].
  split; [| split; [| split; [| split; [| split]]]].
  - intros t s. apply phase1_stores_in_bounds.
  - destruct (phase1_writer_exists (b_coord2 a) (b_coord1 a) i c Hi Hc)
      as [t [Ht [Hl [s [Hs [Hr Hcol]]]]]].
    exists t, s. split; [exact Ht |]. split; [exact Hl |].
    split; [exact Hs |]. split; [exact Hr |]. split; [exact Hcol |].
    split.
    + intros t' s' Ht' Hs' Hr' Hc'.
      apply (phase1_writer_unique (b_coord2 a) (b_coord1 a) t' t s' s
               Ht' Ht Hs' Hs); congruence.
    + destruct (block_kernel_cells phase1_config Hb (b_coord1 a) (b_coord2 a) a
                  eq_refl eq_refl Hgy Hby i c) as [Hin _].
      destruct Hin as [Hd Hx]; [split; [exact Hi | exact Hc] |].
      destruct (block_store_inv phase1_config Hb (b_coord1 a) (b_coord2 a)
                  t s Ht Hs) as [_ [_ [_ [_ Hw1]]]].
      rewrite Hr, Hcol in Hw1. rewrite Hd, Hx, <- Hw1. split; reflexivity.
  - intros r k Hrk.
    destruct (block_kernel_cells phase1_config Hb (b_coord1 a) (b_coord2 a) a
                eq_refl eq_refl Hgy Hby r k) as [_ H].
    apply H. exact Hrk.
  - apply phase2_warp_reads; assumption.
  - intros l Hl. unfold global_scan.
    rewrite (global_reads_lane phase2_config Hb2 Hg2 (g_block_idx g) Hcols
               w i l Hw Hl).
    reflexivity.
  - apply (global_kernel_cells phase2_config Hb2 Hg2 (g_block_dist g)
             (g_block_idx g) Hcols (len (g_out_dist g)) g eq_refl eq_refl
             eq_refl Hgy2 Hby2 i Hout).
Qed.

(* ================================================================= *)
(** ** Matrix multiplication *)

Lemma iota_succ (n : N) : iota (n + 1) = iota n ++ [n].
Proof.
  unfold iota. replace (N.to_nat (n + 1)) with (S (N.to_nat n)) by lia.
  rewrite seq_S, map_app. simpl. rewrite N2Nat.id. reflexivity.
Qed.


Lemma fold_left_map {A B C : Type} (f : A -> B -> A) (g : C -> B)
    (l : list C) (a : A) :
  fold_left f (map g l) a = fold_left (fun acc x => f acc (g x)) l a.
Proof.
  revert a. induction l as [| x l IH]; simpl; intros a; [reflexivity | apply IH].
Qed.

Lemma fold_left_ext_in {A B : Type} (f g : A -> B -> A) (l : list B) (a : A) :
  (forall acc x, In x l -> f acc x = g acc x) ->
  fold_left f l a = fold_left g l a.
Proof.
  revert a. induction l as [| x l IH]; simpl; intros a H; [reflexivity |].
  rewrite (H a x (or_introl eq_refl)). apply IH.
  intros acc y Hy. apply H. now right.
Qed.



Section Stores.

Variable T : Type.
Variable X : Type.
Variables kx ky : X -> N.
Variable val : X -> T.


Lemma fold_set2_cell (a b : N) (v : T) (xs : list X) :
  forall C,
  (forall x, In x xs -> kx x = a -> ky x = b -> val x = v) ->
  at2 (fold_left (fun C x => set2 C (kx x) (ky x) (val x)) xs C) a b =
  if existsb (fun x => (a =? kx x) && (b =? ky x)) xs then v else at2 C a b.
Proof.
  induction xs as [| x xs IH]; simpl; intros C H; [reflexivity |].
  rewrite IH by (intros y Hy; apply H; now right).
  destruct (existsb _ xs).
  - rewrite orb_true_r. reflexivity.
  - rewrite orb_false_r. simpl.
    destruct ((a =? kx x) && (b =? ky x)) eqn:E; [| reflexivity].
    apply andb_true_iff in E. destruct E as [Ea Eb].
    apply N.eqb_eq in Ea, Eb.
    apply (H x (or_introl eq_refl)); congruence.
Qed.


End Stores.


Section NaiveMatmul.

Variable T : Type.
Variable zero : T.
Variables add mul : T -> T -> T.
Variables A B : array2 T.
Variable cfg : launch_config.





End NaiveMatmul.



Section TiledMatmul.

Variable T : Type.
Variable zero : T.
Variables add mul : T -> T -> T.
Variables A B : array2 T.
Variable cfg : launch_config.
Hypothesis block_x : blockDim_x cfg = TPB.
Hypothesis block_y : blockDim_y cfg = TPB.
Variable sh : N -> N -> T.
Variables bx by_ : N.







End TiledMatmul.

Section TiledMatmulKernel.

Variable T : Type.
Variable zero : T.
Variables add mul : T -> T -> T.
Variables A B : array2 T.
Variable sh : N -> N -> T.
Variables m n q : N.
Hypothesis A_cols : shape1 A = TPB * q.






End TiledMatmulKernel.

(** ** The launch cells *)








(** The product of the identity by itself, computed by the tiled kernel. *)
Example fast_matmul_identity16 :
  exists C, fast_matmul_launch f64_zero f64_add f64_mul (fun _ _ => f64_one)
                               identity16 identity16 = Returned C /\
            at2 C 3 3 = f64_one /\ at2 C 3 4 = f64_zero.
Proof.
  eexists. split; [vm_compute; reflexivity |]. vm_compute. split; reflexivity.
Qed.

(* ================================================================= *)
(** ** Barriers of the tiled kernel *)

Lemma chunk_events_lengths (l : list N) :
  length (filter is_syncthreads
            (flat_map (fun i => [Ev_preload i; Ev_syncthreads;
                                 Ev_partial_product i; Ev_syncthreads]) l
             ++ [Ev_store_C])) = (2 * length l)%nat /\
  length (filter is_preload
            (flat_map (fun i => [Ev_preload i; Ev_syncthreads;
                                 Ev_partial_product i; Ev_syncthreads]) l
             ++ [Ev_store_C])) = length l.
Proof.
  induction l as [| i l [IHb IHp]]; simpl.
  - split; reflexivity.
  - simpl in IHb, IHp. rewrite IHb, IHp. split; lia.
Qed.

Lemma chunk_events_counts (l : list N) :
  barriers (flat_map (fun i => [Ev_preload i; Ev_syncthreads;
                                Ev_partial_product i; Ev_syncthreads]) l
            ++ [Ev_store_C]) = 2 * N.of_nat (length l) /\
  preloads (flat_map (fun i => [Ev_preload i; Ev_syncthreads;
                                Ev_partial_product i; Ev_syncthreads]) l
            ++ [Ev_store_C]) = N.of_nat (length l).
Proof.
  unfold barriers, preloads.
  destruct (chunk_events_lengths l) as [-> ->]. split; lia.
Qed.

Lemma iota_length (n : N) : N.of_nat (length (iota n)) = n.
Proof. unfold iota. rewrite length_map, length_seq. lia. Qed.

(** The threads that go on past the test in the block-level model are
    those with a non-empty list of events. *)
Lemma running_events (T : Type) (cfg : launch_config) (A C : array2 T)
    (bx by_ : N) (t : thread) :
  In t (running cfg C bx by_) <->
  In t (block_threads cfg bx by_) /\ fast_matmul_events cfg A C t <> [].
Proof.
  unfold running, fast_matmul_events. rewrite filter_In.
  destruct (quits C (grid_x cfg t) (grid_y cfg t)); simpl.
  - split; [intros [_ H]; discriminate | intros [_ H]; now elim H].
  - split; intros [H _]; (split; [exact H |]).
    + intros E. apply app_eq_nil in E. destruct E as [_ E]. discriminate.
    + reflexivity.
Qed.

(** C5, as stated, fails: for a 17 x 17 result the launch cell starts
    2 x 2 blocks; in block (1, 1) the thread at (0, 0) stands on
    [C[16, 16]] and goes through the two barriers of the single chunk,
    while the thread at (1, 1) stands outside [C] on both axes and has
    returned without preloading and without reaching a barrier. *)
Lemma fast_matmul_early_return :
  in_grid (matmul_config ones_17x16 ones_16x17) (Thread 1 1 0 0) /\
  in_grid (matmul_config ones_17x16 ones_16x17) (Thread 1 1 1 1) /\
  barriers (fast_matmul_events (matmul_config ones_17x16 ones_16x17) ones_17x16
              (np_zeros f64_zero 17 17) (Thread 1 1 0 0)) = 2 /\
  barriers (fast_matmul_events (matmul_config ones_17x16 ones_16x17) ones_17x16
              (np_zeros f64_zero 17 17) (Thread 1 1 1 1)) = 0 /\
  preloads (fast_matmul_events (matmul_config ones_17x16 ones_16x17) ones_17x16
              (np_zeros f64_zero 17 17) (Thread 1 1 1 1)) = 0.
Proof. vm_compute. repeat split. Qed.

(** C5, amended: a thread whose position lies inside [C] preloads once
    and passes two barriers in each of the [K / TPB] trips of the loop; a
    thread whose position lies outside [C] on both axes returns before
    the loop and takes part in no preload and no barrier. *)
Theorem fast_matmul_participation (T : Type) (cfg : launch_config)
    (A C : array2 T) (t_in t_out : thread) :
  grid_x cfg t_in < shape0 C -> grid_y cfg t_in < shape1 C ->
  shape0 C <= grid_x cfg t_out -> shape1 C <= grid_y cfg t_out ->
  barriers (fast_matmul_events cfg A C t_in) = 2 * (shape1 A / TPB) /\
  preloads (fast_matmul_events cfg A C t_in) = shape1 A / TPB /\
  fast_matmul_events cfg A C t_out = [].
Proof.
  intros Hx Hy Hox Hoy. unfold fast_matmul_events, quits.
  apply N.leb_le in Hox, Hoy. rewrite Hox, Hoy. simpl.
  apply N.leb_gt in Hx. rewrite Hx. simpl.
  destruct (chunk_events_counts (iota (shape1 A / TPB))) as [Hb Hp].
  rewrite Hb, Hp, iota_length. repeat split; reflexivity.
Qed.

Lemma fast_matmul_participation_witness :
  barriers (fast_matmul_events (matmul_config ones_17x16 ones_16x17) ones_17x16
              (np_zeros f64_zero 17 17) (Thread 1 1 0 0))
    = 2 * (shape1 ones_17x16 / TPB) /\
  preloads (fast_matmul_events (matmul_config ones_17x16 ones_16x17) ones_17x16
              (np_zeros f64_zero 17 17) (Thread 1 1 0 0))
    = shape1 ones_17x16 / TPB /\
  fast_matmul_events (matmul_config ones_17x16 ones_16x17) ones_17x16
    (np_zeros f64_zero 17 17) (Thread 1 1 1 1) = [].
Proof.
  apply (fast_matmul_participation spec_float
           (matmul_config ones_17x16 ones_16x17) ones_17x16
           (np_zeros f64_zero 17 17) (Thread 1 1 0 0) (Thread 1 1 1 1));
    vm_compute; (reflexivity || discriminate).
Defined.

(* ================================================================= *)
(** ** The launch cell of [matmul] and mismatched shapes *)




Lemma hard_coded_launch_partition_witness :
  (forall t s, in_grid phase1_config t ->
     In s (@block_thread_stores taylor0 phase1_config
             (b_coord1 one_row_block_args) (b_coord2 one_row_block_args) t) ->
     bs_row s < shape0 (b_coord2 one_row_block_args) /\ bs_col s < 32) /\
  (exists t s, in_grid phase1_config t /\ laneid phase1_config t = 0 /\
     In s (@block_thread_stores taylor0 phase1_config
             (b_coord1 one_row_block_args) (b_coord2 one_row_block_args) t) /\
     bs_row s = 0 /\ bs_col s = 5 /\
     (forall t' s', in_grid phase1_config t' ->
        In s' (@block_thread_stores taylor0 phase1_config
                 (b_coord1 one_row_block_args) (b_coord2 one_row_block_args) t') ->
        bs_row s' = 0 -> bs_col s' = 5 -> t' = t) /\
     at2 (b_block_dist (@_block_get_nearest_brute taylor0 phase1_config
                          one_row_block_args)) 0 5 = bs_dist s /\
     at2 (b_block_idx (@_block_get_nearest_brute taylor0 phase1_config
                         one_row_block_args)) 0 5 = to_uint32 (bs_idx s)) /\
  (forall r k, ~ (r < shape0 (b_coord2 one_row_block_args) /\ k < 32) ->
     at2 (b_block_dist (@_block_get_nearest_brute taylor0 phase1_config
                          one_row_block_args)) r k =
       at2 (b_block_dist one_row_block_args) r k /\
     at2 (b_block_idx (@_block_get_nearest_brute taylor0 phase1_config
                         one_row_block_args)) r k =
       at2 (b_block_idx one_row_block_args) r k) /\
  flat_map (fun l => global_reads phase2_config
                       (shape1 (g_block_idx one_row_global_args))
                       (lane_of_warp phase2_config (Thread 0 3 0 2) l) 0) lanes
  = map (fun col => (0, col)) lanes /\
  (forall l, l < 32 ->
     global_scan phase2_config (g_block_dist one_row_global_args)
                 (g_block_idx one_row_global_args)
                 (lane_of_warp phase2_config (Thread 0 3 0 2) l) 0 =
     if lt (at2 (g_block_dist one_row_global_args) 0 l) seed_1e30
     then (at2 (g_block_dist one_row_global_args) 0 l,
           at2 (g_block_idx one_row_global_args) 0 l)
     else (seed_1e30, 0)) /\
  at1 (g_out_dist (_global_get_nearest_brute phase2_config
                     one_row_global_args)) 0 =
    fst (_warp_min_reduce_idx_unrolled
           (fun l => if lt (at2 (g_block_dist one_row_global_args) 0 l) seed_1e30
                     then (at2 (g_block_dist one_row_global_args) 0 l,
                           at2 (g_block_idx one_row_global_args) 0 l)
                     else (seed_1e30, 0)) 0) /\
  at1 (g_out_idx (_global_get_nearest_brute phase2_config
                    one_row_global_args)) 0 =
    to_uint32 (snd (_warp_min_reduce_idx_unrolled
           (fun l => if lt (at2 (g_block_dist one_row_global_args) 0 l) seed_1e30
                     then (at2 (g_block_dist one_row_global_args) 0 l,
                           at2 (g_block_idx one_row_global_args) 0 l)
                     else (seed_1e30, 0)) 0)).
Proof.
  apply (hard_coded_launch_partition taylor0 one_row_block_args
           one_row_global_args 0 5 (Thread 0 3 0 2)).
  - reflexivity.
  - reflexivity.
  - reflexivity.
  - reflexivity.
  - unfold in_grid, phase2_config. simpl. repeat split; reflexivity.
Defined.

(* ================================================================= *)
(** ** The returned pair is a minimum of the distances the kernel computes *)

Section ScannedMinimum.

Context {libm : LibDevice}.
Variables coord1 coord2 : array2 f32.
Variable i : N.

(** Every distance the kernel computes for observation [i] is a number
    below the seed. *)
Hypothesis below_seed :
  forall j, j < shape0 coord1 ->
            lt (dist_f32 coord1 coord2 i j) seed_1e11 = true.

Lemma dist_not_nan (j : N) :
  j < shape0 coord1 -> is_nan (dist_f32 coord1 coord2 i j) = false.
Proof. intros Hj. apply (lt_not_nan _ _ (below_seed j Hj)). Qed.

Lemma scan_fold (js : list N) :
  (forall j, In j js -> j < shape0 coord1) ->
  forall v k, is_nan v = false ->
  let p := fold_left (block_scan_body coord1 coord2 i) js (v, k) in
  le (fst p) v /\ is_nan (fst p) = false /\
  (forall j, In j js -> le (fst p) (dist_f32 coord1 coord2 i j)) /\
  (p = (v, k) \/ (In (snd p) js /\ fst p = dist_f32 coord1 coord2 i (snd p))).
Proof.
  induction js as [| j js IH]; intros Hjs v k Hv; simpl.
  - split; [apply lt_irrefl |]. split; [exact Hv |].
    split; [intros j [] | left; reflexivity].
  - assert (Hj : j < shape0 coord1) by (apply Hjs; now left).
    assert (Hjs' : forall j', In j' js -> j' < shape0 coord1)
      by (intros j' Hj'; apply Hjs; now right).
    pose proof (dist_not_nan j Hj) as Hnj.
    destruct (lt (dist_f32 coord1 coord2 i j) v) eqn:E.
    + destruct (IH Hjs' (dist_f32 coord1 coord2 i j) j Hnj)
        as [Hle [Hn [Hall Hsel]]].
      split; [| split; [exact Hn | split]].
      * apply (le_trans _ (dist_f32 coord1 coord2 i j)); try assumption.
        apply lt_asym, E.
      * intros j' [<- | Hj']; [exact Hle | apply Hall, Hj'].
      * right. destruct Hsel as [-> | [Hin Hv']].
        -- simpl. split; [now left | reflexivity].
        -- split; [now right | exact Hv'].
    + destruct (IH Hjs' v k Hv) as [Hle [Hn [Hall Hsel]]].
      split; [exact Hle | split; [exact Hn | split]].
      * intros j' [<- | Hj']; [| apply Hall, Hj'].
        apply (le_trans _ v); assumption.
      * destruct Hsel as [-> | [Hin Hv']]; [left; reflexivity |].
        right. split; [now right | exact Hv'].
Qed.

(** What a lane holds after its grid-stride scan. *)
Lemma block_scan_spec (startx stridex : N) :
  0 < stridex ->
  let p := block_scan coord1 coord2 startx stridex i in
  le (fst p) seed_1e11 /\ is_nan (fst p) = false /\
  (forall k, startx + k * stridex < shape0 coord1 ->
     le (fst p) (dist_f32 coord1 coord2 i (startx + k * stridex))) /\
  (p = (seed_1e11, 0) \/
   (snd p < shape0 coord1 /\ fst p = dist_f32 coord1 coord2 i (snd p))).
Proof.
  intros Hs. unfold block_scan.
  assert (Hjs : forall j, In j (py_range startx (shape0 coord1) stridex) ->
                          j < shape0 coord1).
  { intros j Hj. apply (py_range_In _ _ _ _ Hs) in Hj.
    destruct Hj as [k [_ H]]. exact H. }
  destruct (scan_fold _ Hjs seed_1e11 0 eq_refl) as [Hle [Hn [Hall Hsel]]].
  split; [exact Hle |]. split; [exact Hn |]. split.
  - intros k Hk. apply Hall. apply (py_range_In _ _ _ _ Hs).
    exists k. split; [reflexivity | exact Hk].
  - destruct Hsel as [-> | [Hin Hv]]; [left; reflexivity |].
    right. split; [apply Hjs, Hin | exact Hv].
Qed.

(** What lane 0 holds after the shuffles of Phase 1. *)
Lemma block_winner_spec (gdx c : N) :
  0 < gdx ->
  let w := block_winner gdx coord1 coord2 i c in
  le (fst w) seed_1e11 /\ is_nan (fst w) = false /\
  (forall l k, l < WARP_SIZE ->
     l + c * WARP_SIZE + k * (WARP_SIZE * gdx) < shape0 coord1 ->
     le (fst w)
        (dist_f32 coord1 coord2 i (l + c * WARP_SIZE + k * (WARP_SIZE * gdx)))) /\
  (w = (seed_1e11, 0) \/
   (snd w < shape0 coord1 /\ fst w = dist_f32 coord1 coord2 i (snd w))).
Proof.
  intros Hg. unfold block_winner.
  set (regs := fun l => block_scan coord1 coord2 (l + c * WARP_SIZE)
                                   (WARP_SIZE * gdx) i).
  assert (Hst : 0 < WARP_SIZE * gdx) by (unfold WARP_SIZE; lia).
  assert (Hnan : forall l, l < WARP_SIZE -> is_nan (fst (regs l)) = false).
  { intros l _. apply (block_scan_spec _ _ Hst). }
  destruct (warp_reduce_bitrev_min regs Hnan) as [l [Hl [E M]]].
  rewrite E. clear E.
  destruct (block_scan_spec (l + c * WARP_SIZE) _ Hst) as [Hle [Hn [_ Hsel]]].
  split; [exact Hle |]. split; [exact Hn |]. split; [| exact Hsel].
  intros l' k Hl' Hk.
  destruct (block_scan_spec (l' + c * WARP_SIZE) _ Hst) as [_ [Hn' [Hall' _]]].
  apply (le_trans _ (fst (regs l'))).
  - exact Hn'.
  - apply M, Hl'.
  - apply Hall', Hk.
Qed.

End ScannedMinimum.

Lemma to_uint32_small (n : N) : n < 4294967296 -> to_uint32 n = n.
Proof. intros H. unfold to_uint32. apply N.mod_small, H. Qed.

(** The part of the correctness of the engine that does not depend on
    rounding: when the reference set is not empty, holds at most [2^32]
    points, and every distance the kernel computes for observation [i]
    is a number below the seed, the driver returns the index of a
    reference point together with the distance the kernel computes for
    it, and no reference point has a smaller computed distance. *)
Lemma solve_returns_scanned_minimum (libm : LibDevice) (u : uninitialised)
    (obs ref : array2 f32) (i : N) :
  0 < shape0 ref -> shape0 ref <= 4294967296 ->
  (forall j, j < shape0 ref -> lt (dist_f32 ref obs i j) seed_1e11 = true) ->
  i < shape0 obs ->
  returned_idx (numba_cuda_solve u obs ref) i < shape0 ref /\
  returned_dist (numba_cuda_solve u obs ref) i =
    dist_f32 ref obs i (returned_idx (numba_cuda_solve u obs ref) i) /\
  forall j, j < shape0 ref ->
    le (returned_dist (numba_cuda_solve u obs ref) i) (dist_f32 ref obs i j).
Proof.
  intros Hne Hsize Hseed Hi. unfold numba_cuda_solve.
  destruct phase1_config_shape as [Hb [Hg [Hgy Hby]]].
  destruct (numba_cuda_solve_with_returns phase1_config phase2_config u obs ref
              Hgy Hby Hb phase2_config_shape i Hi) as [Hd Hx].
  rewrite Hd, Hx. clear Hd Hx.
  set (W := fun c => block_winner 32 ref obs i c).
  assert (HW : forall c, let w := W c in
            le (fst w) seed_1e11 /\ is_nan (fst w) = false /\
            (forall l k, l < WARP_SIZE ->
               l + c * WARP_SIZE + k * (WARP_SIZE * 32) < shape0 ref ->
               le (fst w)
                  (dist_f32 ref obs i (l + c * WARP_SIZE + k * (WARP_SIZE * 32)))) /\
            (w = (seed_1e11, 0) \/
             (snd w < shape0 ref /\ fst w = dist_f32 ref obs i (snd w)))).
  { intros c. apply (block_winner_spec ref obs i Hseed 32 c). reflexivity. }
  set (regs2 := fun l => (fst (W l), to_uint32 (snd (W l)))).
  assert (Hgw : global_winner (b_block_dist (partials phase1_config u obs ref))
                  (b_block_idx (partials phase1_config u obs ref)) i
                = _warp_min_reduce_idx_unrolled regs2 0).
  { unfold global_winner. apply warp_reduce_ext; [| reflexivity].
    intros l Hl. unfold partials.
    set (a := Block_args ref obs _ _).
    destruct (block_kernel_cells phase1_config Hb ref obs a eq_refl eq_refl
                Hgy Hby i l) as [Hin _].
    destruct Hin as [Hbd Hbi]; [split; [exact Hi | exact Hl] |].
    change (gridDim_x phase1_config) with 32 in Hbd, Hbi.
    fold (W l) in Hbd, Hbi.
    unfold global_scan_body. cbn [fst snd]. rewrite Hbd, Hbi.
    destruct (HW l) as [Hle [Hn _]].
    rewrite (le_lt_trans (fst (W l)) seed_1e11 seed_1e30 Hn Hle eq_refl).
    reflexivity. }
  rewrite Hgw. clear Hgw.
  assert (Hnan : forall l, l < WARP_SIZE -> is_nan (fst (regs2 l)) = false).
  { intros l _. apply (HW l). }
  destruct (warp_reduce_bitrev_min regs2 Hnan) as [l [Hl [E M]]].
  rewrite E. unfold regs2 at 1 2 3 4. cbn [fst snd].
  assert (Hmin : forall j, j < shape0 ref ->
                   le (fst (W l)) (dist_f32 ref obs i j)).
  { intros j Hj.
    set (c := (j mod 1024) / 32).
    destruct (HW c) as [_ [Hn [Hall _]]].
    apply (le_trans _ (fst (W c))); [exact Hn | |].
    - apply (M c). unfold c, WARP_SIZE. lia.
    - replace j with (j mod 32 + c * WARP_SIZE + (j / 1024) * (WARP_SIZE * 32))
        by (unfold c, WARP_SIZE; lia).
      apply Hall; [unfold WARP_SIZE; lia |].
      replace (j mod 32 + c * WARP_SIZE + (j / 1024) * (WARP_SIZE * 32)) with j
        by (unfold c, WARP_SIZE; lia).
      exact Hj. }
  destruct (HW l) as [_ [_ [_ [Hseedpair | [Hidx Hval]]]]].
  - exfalso. specialize (Hmin 0 Hne). rewrite Hseedpair in Hmin.
    simpl in Hmin. unfold le in Hmin. rewrite (Hseed 0 Hne) in Hmin.
    discriminate.
  - rewrite !to_uint32_small by (try rewrite to_uint32_small; lia).
    split; [exact Hidx |]. split; [exact Hval | exact Hmin].
Qed.

(** On the single point [(0, 0)] as observation and as reference the
    premises hold and the driver returns index 0. *)
Example solve_origin :
  returned_idx (@numba_cuda_solve taylor0 stale origin origin) 0 < shape0 origin /\
  returned_dist (@numba_cuda_solve taylor0 stale origin origin) 0 =
    @dist_f32 taylor0 origin origin 0
      (returned_idx (@numba_cuda_solve taylor0 stale origin origin) 0) /\
  forall j, j < shape0 origin ->
    le (returned_dist (@numba_cuda_solve taylor0 stale origin origin) 0)
       (@dist_f32 taylor0 origin origin 0 j).
Proof.
  apply (solve_returns_scanned_minimum taylor0 stale origin origin 0).
  - reflexivity.
  - discriminate.
  - intros j Hj. assert (j = 0) by (simpl in Hj; lia). subst j.
    vm_compute. reflexivity.
  - reflexivity.
Qed.


(* ================================================================= *)
(** * Further properties of the code *)

(** ** The warp reduction on arbitrary values *)

Lemma shfl_min_step_nan (d : N) (r : warp_regs) (l : N) :
  is_nan (fst (shfl_min_step d r l)) = is_nan (fst (r l)).
Proof.
  unfold shfl_min_step.
  destruct (gt (fst (r l)) (fst (shfl_down_sync r d l))) eqn:G.
  - unfold gt in G. apply lt_not_nan in G. destruct G as [G1 G2].
    rewrite G1, G2. reflexivity.
  - reflexivity.
Qed.

Lemma shfl_min_step_source (d : N) (r : warp_regs) (l : N) :
  l < WARP_SIZE -> exists l', l' < WARP_SIZE /\ shfl_min_step d r l = r l'.
Proof.
  intros Hl. unfold shfl_min_step, shfl_down_sync.
  destruct (l + d <? WARP_SIZE) eqn:E.
  - apply N.ltb_lt in E.
    destruct (gt (fst (r l)) (fst (r (l + d)))).
    + exists (l + d). split; [exact E | reflexivity].
    + exists l. split; [exact Hl | reflexivity].
  - exists l. split; [exact Hl |].
    destruct (gt (fst (r l)) (fst (r l))); reflexivity.
Qed.

Lemma warp_reduce_source (regs : warp_regs) (l : N) :
  l < WARP_SIZE ->
  exists l', l' < WARP_SIZE /\ _warp_min_reduce_idx_unrolled regs l = regs l'.
Proof.
  intros Hl. unfold _warp_min_reduce_idx_unrolled.
  destruct (shfl_min_step_source 1
              (shfl_min_step 2 (shfl_min_step 4 (shfl_min_step 8
                 (shfl_min_step 16 regs)))) l Hl) as [l1 [H1 ->]].
  destruct (shfl_min_step_source 2
              (shfl_min_step 4 (shfl_min_step 8 (shfl_min_step 16 regs)))
              l1 H1) as [l2 [H2 ->]].
  destruct (shfl_min_step_source 4 (shfl_min_step 8 (shfl_min_step 16 regs))
              l2 H2) as [l3 [H3 ->]].
  destruct (shfl_min_step_source 8 (shfl_min_step 16 regs) l3 H3)
    as [l4 [H4 ->]].
  destruct (shfl_min_step_source 16 regs l4 H4) as [l5 [H5 ->]].
  exists l5. split; [exact H5 | reflexivity].
Qed.

(** X1: whatever the 32 lanes hold, NaNs included, every lane ends the
    reduction with the pair of one of the 32 lanes: a value always
    travels with the index it came with. *)
Theorem warp_reduce_returns_a_lane_pair (regs : warp_regs) (l : N) :
  l < WARP_SIZE ->
  exists l', l' < WARP_SIZE /\ _warp_min_reduce_idx_unrolled regs l = regs l'.
Proof. apply warp_reduce_source. Qed.

Lemma warp_reduce_returns_a_lane_pair_witness :
  exists l', l' < WARP_SIZE /\ _warp_min_reduce_idx_unrolled nan_regs 0 = nan_regs l'.
Proof.
  apply (warp_reduce_returns_a_lane_pair nan_regs 0). reflexivity.
Defined.

(** X2: a lane ends the reduction with a NaN exactly when it entered it
    with one: a NaN is never handed to another lane, and a lane that
    holds one never lets go of it, so a NaN on lane 0 hides every other
    lane's value. *)
Theorem warp_reduce_nan_stays (regs : warp_regs) (l : N) :
  is_nan (fst (_warp_min_reduce_idx_unrolled regs l)) = is_nan (fst (regs l)).
Proof.
  unfold _warp_min_reduce_idx_unrolled. rewrite !shfl_min_step_nan. reflexivity.
Qed.

(* ================================================================= *)
(** ** The engine on arbitrary inputs *)

Section EngineBounds.

Context {libm : LibDevice}.
Variables coord1 coord2 : array2 f32.
Variable i : N.

(** The scan never takes a NaN and never goes above where it started. *)
Lemma scan_bounded (js : list N) :
  forall v k, is_nan v = false ->
  let p := fold_left (block_scan_body coord1 coord2 i) js (v, k) in
  is_nan (fst p) = false /\ le (fst p) v /\ (p = (v, k) \/ In (snd p) js).
Proof.
  induction js as [| j js IH]; intros v k Hv; simpl.
  - split; [exact Hv |]. split; [apply lt_irrefl | left; reflexivity].
  - destruct (lt (dist_f32 coord1 coord2 i j) v) eqn:E.
    + destruct (lt_not_nan _ _ E) as [Hn _].
      destruct (IH (dist_f32 coord1 coord2 i j) j Hn) as [Hp [Hle Hsel]].
      split; [exact Hp |]. split.
      * apply (le_trans _ (dist_f32 coord1 coord2 i j)); try assumption.
        apply lt_asym, E.
      * right. destruct Hsel as [-> | Hin]; [now left | now right].
    + destruct (IH v k Hv) as [Hp [Hle Hsel]].
      split; [exact Hp |]. split; [exact Hle |].
      destruct Hsel as [-> | Hin]; [left; reflexivity | right; now right].
Qed.

Lemma block_scan_bounded (startx stridex : N) :
  0 < stridex ->
  let p := block_scan coord1 coord2 startx stridex i in
  is_nan (fst p) = false /\ le (fst p) seed_1e11 /\
  (snd p = 0 \/ snd p < shape0 coord1).
Proof.
  intros Hs. unfold block_scan.
  destruct (scan_bounded (py_range startx (shape0 coord1) stridex)
              seed_1e11 0 eq_refl) as [Hn [Hle Hsel]].
  split; [exact Hn |]. split; [exact Hle |].
  destruct Hsel as [-> | Hin]; [left; reflexivity |].
  right. apply (py_range_In _ _ _ _ Hs) in Hin.
  destruct Hin as [k [_ H]]. exact H.
Qed.

Lemma block_winner_bounded (gdx c : N) :
  0 < gdx ->
  let w := block_winner gdx coord1 coord2 i c in
  is_nan (fst w) = false /\ le (fst w) seed_1e11 /\
  (snd w = 0 \/ snd w < shape0 coord1).
Proof.
  intros Hg. unfold block_winner.
  destruct (warp_reduce_source
              (fun l => block_scan coord1 coord2 (l + c * WARP_SIZE)
                                   (WARP_SIZE * gdx) i) 0 eq_refl)
    as [l [_ ->]].
  apply block_scan_bounded. unfold WARP_SIZE. lia.
Qed.

End EngineBounds.

(** Under the hard-coded Phase 1 launch every cell of the block arrays
    in an observation's row holds the winner of its column, whatever the
    arrays held before. *)
Lemma partials_cells {libm : LibDevice} (u : uninitialised)
    (obs ref : array2 f32) (i l : N) :
  i < shape0 obs -> l < WARP_SIZE ->
  at2 (b_block_dist (partials phase1_config u obs ref)) i l =
    fst (block_winner 32 ref obs i l) /\
  at2 (b_block_idx (partials phase1_config u obs ref)) i l =
    to_uint32 (snd (block_winner 32 ref obs i l)).
Proof.
  intros Hi Hl.
  destruct phase1_config_shape as [Hb [Hg [Hgy Hby]]].
  unfold partials. set (a := Block_args ref obs _ _).
  destruct (block_kernel_cells phase1_config Hb ref obs a eq_refl eq_refl
              Hgy Hby i l) as [Hin _].
  destruct Hin as [Hbd Hbi]; [split; [exact Hi | exact Hl] |].
  change (gridDim_x phase1_config) with 32 in Hbd, Hbi.
  split; assumption.
Qed.

(** X3: for any observations, references and buffer contents, also when
    the kernel computes NaNs or huge values for some pairs, the distance
    the driver returns is a number not above the seed [float32(1e11)],
    and the index it returns is 0 or the index of a reference point. *)
Theorem solve_returns_number_and_valid_index (libm : LibDevice)
    (u : uninitialised) (obs ref : array2 f32) (i : N) :
  i < shape0 obs ->
  is_nan (returned_dist (numba_cuda_solve u obs ref) i) = false /\
  le (returned_dist (numba_cuda_solve u obs ref) i) seed_1e11 /\
  (returned_idx (numba_cuda_solve u obs ref) i = 0 \/
   returned_idx (numba_cuda_solve u obs ref) i < shape0 ref).
Proof.
  intros Hi. unfold numba_cuda_solve.
  destruct phase1_config_shape as [Hb [Hg [Hgy Hby]]].
  destruct (numba_cuda_solve_with_returns phase1_config phase2_config u obs ref
              Hgy Hby Hb phase2_config_shape i Hi) as [Hd Hx].
  rewrite Hd, Hx. clear Hd Hx. unfold global_winner.
  destruct (warp_reduce_source
              (fun l => global_scan_body
                          (b_block_dist (partials phase1_config u obs ref))
                          (b_block_idx (partials phase1_config u obs ref))
                          (seed_1e30, 0) (i, l)) 0 eq_refl) as [l [Hl ->]].
  destruct (partials_cells u obs ref i l Hi Hl) as [Hbd Hbi].
  destruct (block_winner_bounded ref obs i 32 l eq_refl) as [Hn [Hle Hidx]].
  unfold global_scan_body. cbn [fst snd]. rewrite Hbd, Hbi.
  rewrite (le_lt_trans _ seed_1e11 seed_1e30 Hn Hle eq_refl). cbn [fst snd].
  split; [exact Hn |]. split; [exact Hle |].
  unfold to_uint32.
  destruct Hidx as [-> | Hidx]; [left; reflexivity | right].
  eapply N.le_lt_trans; [apply N.Div0.mod_le |].
  eapply N.le_lt_trans; [apply N.Div0.mod_le | exact Hidx].
Qed.

Lemma solve_returns_number_and_valid_index_witness :
  is_nan (returned_dist (@numba_cuda_solve taylor0 stale origin origin) 0) = false /\
  le (returned_dist (@numba_cuda_solve taylor0 stale origin origin) 0) seed_1e11 /\
  (returned_idx (@numba_cuda_solve taylor0 stale origin origin) 0 = 0 \/
   returned_idx (@numba_cuda_solve taylor0 stale origin origin) 0 < shape0 origin).
Proof.
  apply (solve_returns_number_and_valid_index taylor0 stale origin origin 0).
  reflexivity.
Defined.

(** X4: what the driver returns for an observation does not depend on
    what the four buffers it allocates with [cuda.device_array] held:
    under the hard-coded launch every cell that is read has been written
    before. *)
Theorem solve_ignores_stale_memory (libm : LibDevice) (u u' : uninitialised)
    (obs ref : array2 f32) (i : N) :
  i < shape0 obs ->
  returned_idx (numba_cuda_solve u obs ref) i =
    returned_idx (numba_cuda_solve u' obs ref) i /\
  returned_dist (numba_cuda_solve u obs ref) i =
    returned_dist (numba_cuda_solve u' obs ref) i.
Proof.
  intros Hi. unfold numba_cuda_solve.
  destruct phase1_config_shape as [Hb [Hg [Hgy Hby]]].
  destruct (numba_cuda_solve_with_returns phase1_config phase2_config u obs ref
              Hgy Hby Hb phase2_config_shape i Hi) as [Hd Hx].
  destruct (numba_cuda_solve_with_returns phase1_config phase2_config u' obs ref
              Hgy Hby Hb phase2_config_shape i Hi) as [Hd' Hx'].
  rewrite Hd, Hx, Hd', Hx'.
  assert (E : global_winner (b_block_dist (partials phase1_config u obs ref))
                            (b_block_idx (partials phase1_config u obs ref)) i =
              global_winner (b_block_dist (partials phase1_config u' obs ref))
                            (b_block_idx (partials phase1_config u' obs ref)) i).
  { apply global_winner_ext. intros l Hl.
    destruct (partials_cells u obs ref i l Hi Hl) as [E1 E2].
    destruct (partials_cells u' obs ref i l Hi Hl) as [E1' E2'].
    split; congruence. }
  exact (conj (f_equal (fun w => to_uint32 (snd w)) E) (f_equal fst E)).
Qed.

Lemma solve_ignores_stale_memory_witness :
  returned_idx (@numba_cuda_solve taylor0 stale origin origin) 0 =
    returned_idx (@numba_cuda_solve taylor0
                    (Uninitialised (fun _ => 0) (fun _ => zero)
                                   (fun _ _ => 0) (fun _ _ => zero))
                    origin origin) 0 /\
  returned_dist (@numba_cuda_solve taylor0 stale origin origin) 0 =
    returned_dist (@numba_cuda_solve taylor0
                     (Uninitialised (fun _ => 0) (fun _ => zero)
                                    (fun _ _ => 0) (fun _ _ => zero))
                     origin origin) 0.
Proof.
  apply (solve_ignores_stale_memory taylor0 stale
           (Uninitialised (fun _ => 0) (fun _ => zero)
                          (fun _ _ => 0) (fun _ _ => zero)) origin origin 0).
  reflexivity.
Defined.

(* ================================================================= *)
(** ** The minimum the engine computes, without assumptions on the
       distances *)

Lemma to_uint32_idem (n : N) : to_uint32 (to_uint32 n) = to_uint32 n.
Proof. unfold to_uint32. apply N.Div0.mod_mod. Qed.

Section EngineMinimum.

Context {libm : LibDevice}.
Variables coord1 coord2 : array2 f32.
Variable i : N.

(** A NaN distance is never adopted and never in the way: the scan ends
    on a number that no scanned distance is below. *)
Lemma scan_min (js : list N) :
  forall v k, is_nan v = false ->
  let p := fold_left (block_scan_body coord1 coord2 i) js (v, k) in
  le (fst p) v /\ is_nan (fst p) = false /\
  (forall j, In j js -> le (fst p) (dist_f32 coord1 coord2 i j)) /\
  (p = (v, k) \/ (In (snd p) js /\ fst p = dist_f32 coord1 coord2 i (snd p))).
Proof.
  induction js as [| j js IH]; intros v k Hv; simpl.
  - split; [apply lt_irrefl |]. split; [exact Hv |].
    split; [intros j [] | left; reflexivity].
  - destruct (lt (dist_f32 coord1 coord2 i j) v) eqn:E.
    + destruct (lt_not_nan _ _ E) as [Hnj _].
      destruct (IH (dist_f32 coord1 coord2 i j) j Hnj)
        as [Hle [Hn [Hall Hsel]]].
      split; [| split; [exact Hn | split]].
      * apply (le_trans _ (dist_f32 coord1 coord2 i j)); try assumption.
        apply lt_asym, E.
      * intros j' [<- | Hj']; [exact Hle | apply Hall, Hj'].
      * right. destruct Hsel as [-> | [Hin Hv']].
        -- simpl. split; [now left | reflexivity].
        -- split; [now right | exact Hv'].
    + destruct (IH v k Hv) as [Hle [Hn [Hall Hsel]]].
      split; [exact Hle | split; [exact Hn | split]].
      * intros j' [<- | Hj']; [| apply Hall, Hj'].
        apply (le_trans _ v); assumption.
      * destruct Hsel as [-> | [Hin Hv']]; [left; reflexivity |].
        right. split; [now right | exact Hv'].
Qed.

Lemma block_scan_min (startx stridex : N) :
  0 < stridex ->
  let p := block_scan coord1 coord2 startx stridex i in
  le (fst p) seed_1e11 /\ is_nan (fst p) = false /\
  (forall k, startx + k * stridex < shape0 coord1 ->
     le (fst p) (dist_f32 coord1 coord2 i (startx + k * stridex))) /\
  (p = (seed_1e11, 0) \/
   (snd p < shape0 coord1 /\ fst p = dist_f32 coord1 coord2 i (snd p))).
Proof.
  intros Hs. unfold block_scan.
  destruct (scan_min (py_range startx (shape0 coord1) stridex)
              seed_1e11 0 eq_refl) as [Hle [Hn [Hall Hsel]]].
  split; [exact Hle |]. split; [exact Hn |]. split.
  - intros k Hk. apply Hall. apply (py_range_In _ _ _ _ Hs).
    exists k. split; [reflexivity | exact Hk].
  - destruct Hsel as [-> | [Hin Hv]]; [left; reflexivity | right].
    split; [| exact Hv].
    apply (py_range_In _ _ _ _ Hs) in Hin. destruct Hin as [k [_ H]]. exact H.
Qed.

Lemma block_winner_min (gdx c : N) :
  0 < gdx ->
  let w := block_winner gdx coord1 coord2 i c in
  le (fst w) seed_1e11 /\ is_nan (fst w) = false /\
  (forall l k, l < WARP_SIZE ->
     l + c * WARP_SIZE + k * (WARP_SIZE * gdx) < shape0 coord1 ->
     le (fst w)
        (dist_f32 coord1 coord2 i (l + c * WARP_SIZE + k * (WARP_SIZE * gdx)))) /\
  (w = (seed_1e11, 0) \/
   (snd w < shape0 coord1 /\ fst w = dist_f32 coord1 coord2 i (snd w))).
Proof.
  intros Hg. unfold block_winner.
  set (regs := fun l => block_scan coord1 coord2 (l + c * WARP_SIZE)
                                   (WARP_SIZE * gdx) i).
  assert (Hst : 0 < WARP_SIZE * gdx) by (unfold WARP_SIZE; lia).
  assert (Hnan : forall l, l < WARP_SIZE -> is_nan (fst (regs l)) = false).
  { intros l _. apply (block_scan_min _ _ Hst). }
  destruct (warp_reduce_bitrev_min regs Hnan) as [l [Hl [E M]]].
  rewrite E. clear E.
  destruct (block_scan_min (l + c * WARP_SIZE) _ Hst) as [Hle [Hn [_ Hsel]]].
  split; [exact Hle |]. split; [exact Hn |]. split; [| exact Hsel].
  intros l' k Hl' Hk.
  destruct (block_scan_min (l' + c * WARP_SIZE) _ Hst) as [_ [Hn' [Hall' _]]].
  apply (le_trans _ (fst (regs l'))).
  - exact Hn'.
  - apply M, Hl'.
  - apply Hall', Hk.
Qed.

End EngineMinimum.

(** The winner Phase 2 computes for an observation from the block arrays
    of the hard-coded Phase 1 launch. *)
Lemma solve_winner_min {libm : LibDevice} (u : uninitialised)
    (obs ref : array2 f32) (i : N) :
  i < shape0 obs ->
  let gw := global_winner (b_block_dist (partials phase1_config u obs ref))
                          (b_block_idx (partials phase1_config u obs ref)) i in
  (forall j, j < shape0 ref -> le (fst gw) (dist_f32 ref obs i j)) /\
  (gw = (seed_1e11, 0) \/
   exists j, j < shape0 ref /\ gw = (dist_f32 ref obs i j, to_uint32 j)).
Proof.
  intros Hi gw. unfold gw. clear gw.
  set (W := fun c => block_winner 32 ref obs i c).
  assert (HW : forall c, let w := W c in
            le (fst w) seed_1e11 /\ is_nan (fst w) = false /\
            (forall l k, l < WARP_SIZE ->
               l + c * WARP_SIZE + k * (WARP_SIZE * 32) < shape0 ref ->
               le (fst w)
                  (dist_f32 ref obs i (l + c * WARP_SIZE + k * (WARP_SIZE * 32)))) /\
            (w = (seed_1e11, 0) \/
             (snd w < shape0 ref /\ fst w = dist_f32 ref obs i (snd w)))).
  { intros c. apply (block_winner_min ref obs i 32 c). reflexivity. }
  set (regs2 := fun l => (fst (W l), to_uint32 (snd (W l)))).
  assert (Hgw : global_winner (b_block_dist (partials phase1_config u obs ref))
                  (b_block_idx (partials phase1_config u obs ref)) i
                = _warp_min_reduce_idx_unrolled regs2 0).
  { unfold global_winner. apply warp_reduce_ext; [| reflexivity].
    intros l Hl.
    destruct (partials_cells u obs ref i l Hi Hl) as [Hbd Hbi].
    fold (W l) in Hbd, Hbi.
    unfold global_scan_body. cbn [fst snd]. rewrite Hbd, Hbi.
    destruct (HW l) as [Hle [Hn _]].
    rewrite (le_lt_trans (fst (W l)) seed_1e11 seed_1e30 Hn Hle eq_refl).
    reflexivity. }
  rewrite Hgw. clear Hgw.
  assert (Hnan : forall l, l < WARP_SIZE -> is_nan (fst (regs2 l)) = false).
  { intros l _. apply (HW l). }
  destruct (warp_reduce_bitrev_min regs2 Hnan) as [l [Hl [E M]]].
  rewrite E. unfold regs2 at 1 2 3. cbn [fst snd].
  split.
  - intros j Hj.
    set (c := (j mod 1024) / 32).
    destruct (HW c) as [_ [Hn [Hall _]]].
    apply (le_trans _ (fst (W c))); [exact Hn | |].
    + apply (M c). unfold c, WARP_SIZE. lia.
    + replace j with (j mod 32 + c * WARP_SIZE + (j / 1024) * (WARP_SIZE * 32))
        by (unfold c, WARP_SIZE; lia).
      apply Hall; [unfold WARP_SIZE; lia |].
      replace (j mod 32 + c * WARP_SIZE + (j / 1024) * (WARP_SIZE * 32)) with j
        by (unfold c, WARP_SIZE; lia).
      exact Hj.
  - destruct (HW l) as [_ [_ [_ [Hseedpair | [Hidx Hval]]]]].
    + left. rewrite Hseedpair. reflexivity.
    + right. exists (snd (W l)). split; [exact Hidx |].
      rewrite <- Hval. reflexivity.
Qed.

(** X5: for every input, the distance the driver returns for an
    observation is not above any distance the kernel computes between
    that observation and a reference point (a NaN distance is above
    nothing), and the returned pair is either the seed with index 0 or
    the computed distance of a reference point with that point's index,
    reduced modulo [2^32]. *)
Theorem solve_returns_computed_minimum (libm : LibDevice) (u : uninitialised)
    (obs ref : array2 f32) (i : N) :
  i < shape0 obs ->
  (forall j, j < shape0 ref ->
     le (returned_dist (numba_cuda_solve u obs ref) i) (dist_f32 ref obs i j)) /\
  ((returned_dist (numba_cuda_solve u obs ref) i = seed_1e11 /\
    returned_idx (numba_cuda_solve u obs ref) i = 0) \/
   exists j, j < shape0 ref /\
     returned_dist (numba_cuda_solve u obs ref) i = dist_f32 ref obs i j /\
     returned_idx (numba_cuda_solve u obs ref) i = to_uint32 j).
Proof.
  intros Hi. unfold numba_cuda_solve.
  destruct phase1_config_shape as [Hb [Hg [Hgy Hby]]].
  destruct (numba_cuda_solve_with_returns phase1_config phase2_config u obs ref
              Hgy Hby Hb phase2_config_shape i Hi) as [Hd Hx].
  rewrite Hd, Hx. clear Hd Hx.
  destruct (solve_winner_min u obs ref i Hi) as [Hmin Hsel].
  split; [exact Hmin |].
  destruct Hsel as [-> | [j [Hj ->]]].
  - left. split; reflexivity.
  - right. exists j. cbn [fst snd].
    split; [exact Hj |]. split; [reflexivity | apply to_uint32_idem].
Qed.

Lemma solve_returns_computed_minimum_witness :
  (forall j, j < shape0 origin ->
     le (returned_dist (@numba_cuda_solve taylor0 stale origin origin) 0)
        (@dist_f32 taylor0 origin origin 0 j)) /\
  ((returned_dist (@numba_cuda_solve taylor0 stale origin origin) 0 = seed_1e11 /\
    returned_idx (@numba_cuda_solve taylor0 stale origin origin) 0 = 0) \/
   exists j, j < shape0 origin /\
     returned_dist (@numba_cuda_solve taylor0 stale origin origin) 0 =
       @dist_f32 taylor0 origin origin 0 j /\
     returned_idx (@numba_cuda_solve taylor0 stale origin origin) 0 = to_uint32 j).
Proof.
  apply (solve_returns_computed_minimum taylor0 stale origin origin 0).
  reflexivity.
Defined.

(** X6: when the reference set holds at most [2^32] points and the
    kernel computes a distance below the seed for at least one of them,
    the driver returns the index of a reference point, the distance the
    kernel computes for that point, and no reference point has a smaller
    computed distance. *)
Theorem solve_returns_nearest_reference (libm : LibDevice) (u : uninitialised)
    (obs ref : array2 f32) (i j0 : N) :
  i < shape0 obs -> shape0 ref <= 4294967296 ->
  j0 < shape0 ref -> lt (dist_f32 ref obs i j0) seed_1e11 = true ->
  returned_idx (numba_cuda_solve u obs ref) i < shape0 ref /\
  returned_dist (numba_cuda_solve u obs ref) i =
    dist_f32 ref obs i (returned_idx (numba_cuda_solve u obs ref) i) /\
  forall j, j < shape0 ref ->
    le (returned_dist (numba_cuda_solve u obs ref) i) (dist_f32 ref obs i j).
Proof.
  intros Hi Hsize Hj0 Hlt. unfold numba_cuda_solve.
  destruct phase1_config_shape as [Hb [Hg [Hgy Hby]]].
  destruct (numba_cuda_solve_with_returns phase1_config phase2_config u obs ref
              Hgy Hby Hb phase2_config_shape i Hi) as [Hd Hx].
  rewrite Hd, Hx. clear Hd Hx.
  destruct (solve_winner_min u obs ref i Hi) as [Hmin Hsel].
  destruct Hsel as [E | [j [Hj E]]].
  - exfalso. specialize (Hmin j0 Hj0). rewrite E in Hmin.
    cbn [fst] in Hmin. unfold le in Hmin. rewrite Hlt in Hmin. discriminate Hmin.
  - split; [| split; [| exact Hmin]]; rewrite E; cbn [fst snd];
      rewrite !to_uint32_small by (try rewrite to_uint32_small; lia).
    + exact Hj.
    + reflexivity.
Qed.

Lemma solve_returns_nearest_reference_witness :
  returned_idx (@numba_cuda_solve taylor0 stale origin origin) 0 < shape0 origin /\
  returned_dist (@numba_cuda_solve taylor0 stale origin origin) 0 =
    @dist_f32 taylor0 origin origin 0
      (returned_idx (@numba_cuda_solve taylor0 stale origin origin) 0) /\
  forall j, j < shape0 origin ->
    le (returned_dist (@numba_cuda_solve taylor0 stale origin origin) 0)
       (@dist_f32 taylor0 origin origin 0 j).
Proof.
  apply (solve_returns_nearest_reference taylor0 stale origin origin 0 0).
  - reflexivity.
  - discriminate.
  - reflexivity.
  - vm_compute. reflexivity.
Defined.

(* ================================================================= *)
(** ** Grid-stride loops and the extent of the stores *)

Lemma py_range_below (start stop step i : N) :
  In i (py_range start stop step) -> i < stop.
Proof.
  destruct (N.eq_dec step 0) as [-> | Hs].
  - unfold py_range. rewrite N.div_0_r. intros [].
  - intros H. apply py_range_In in H; [| lia].
    destruct H as [k [_ H]]. exact H.
Qed.

Lemma py_range_start (start stop step i : N) :
  start < step -> In i (py_range start stop step) -> start = i mod step.
Proof.
  intros Hs H. apply py_range_In in H; [| lia].
  destruct H as [k [-> _]].
  rewrite N.Div0.mod_add. symmetry. apply N.mod_small, Hs.
Qed.

Lemma grid_coordinate_unique (bd a b a' b' : N) :
  a < bd -> a' < bd -> a + b * bd = a' + b' * bd -> a = a' /\ b = b'.
Proof.
  intros Ha Ha' E.
  destruct (N.div_mod_unique bd b b' a a' Ha Ha') as [Hq Hr]; [lia |].
  split; assumption.
Qed.

(** X7: in any launch, every pair of a row below [rows] and a column
    below [cols] is reached by the two nested grid-stride loops of
    exactly one thread of the grid: no pair is skipped and none is
    visited twice. *)
Theorem grid_stride_visits_once (cfg : launch_config) (rows cols i j : N) :
  0 < gridDim_x cfg -> 0 < gridDim_y cfg ->
  0 < blockDim_x cfg -> 0 < blockDim_y cfg ->
  i < rows -> j < cols ->
  exists t,
    (in_grid cfg t /\
     In i (py_range (grid_y cfg t) rows (gridsize_y cfg)) /\
     In j (py_range (grid_x cfg t) cols (gridsize_x cfg))) /\
    forall t', in_grid cfg t' ->
      In i (py_range (grid_y cfg t') rows (gridsize_y cfg)) ->
      In j (py_range (grid_x cfg t') cols (gridsize_x cfg)) ->
      t' = t.
Proof.
  intros Hgx Hgy Hbx Hby Hi Hj.
  destruct (grid_stride_covers_positive cfg rows cols Hgx Hgy Hbx Hby i j Hi Hj)
    as [t [Ht [Hti Htj]]].
  exists t. split; [split; [exact Ht | split; assumption] |].
  intros t' Ht' Hti' Htj'.
  assert (Hb : forall u, in_grid cfg u ->
             grid_y cfg u < gridsize_y cfg /\ grid_x cfg u < gridsize_x cfg).
  { intros u [H1 [H2 [H3 H4]]].
    unfold grid_x, grid_y, gridsize_x, gridsize_y. split; nia. }
  destruct (Hb t Ht) as [Hy Hx]. destruct (Hb t' Ht') as [Hy' Hx'].
  pose proof (py_range_start _ _ _ _ Hy Hti) as Ey.
  pose proof (py_range_start _ _ _ _ Hy' Hti') as Ey'.
  pose proof (py_range_start _ _ _ _ Hx Htj) as Ex.
  pose proof (py_range_start _ _ _ _ Hx' Htj') as Ex'.
  rewrite <- Ey in Ey'. rewrite <- Ex in Ex'.
  destruct Ht as [_ [_ [H3 H4]]]. destruct Ht' as [_ [_ [H3' H4']]].
  unfold grid_x in Ex'. unfold grid_y in Ey'.
  destruct (grid_coordinate_unique _ _ _ _ _ H4' H4 Ey') as [Ety Eby].
  destruct (grid_coordinate_unique _ _ _ _ _ H3' H3 Ex') as [Etx Ebx].
  destruct t, t'. cbn in Ety, Eby, Etx, Ebx. congruence.
Qed.

Lemma grid_stride_visits_once_witness :
  exists t,
    (in_grid phase1_config t /\
     In 5 (py_range (grid_y phase1_config t) 7 (gridsize_y phase1_config)) /\
     In 40 (py_range (grid_x phase1_config t) 100 (gridsize_x phase1_config))) /\
    forall t', in_grid phase1_config t' ->
      In 5 (py_range (grid_y phase1_config t') 7 (gridsize_y phase1_config)) ->
      In 40 (py_range (grid_x phase1_config t') 100 (gridsize_x phase1_config)) ->
      t' = t.
Proof.
  apply (grid_stride_visits_once phase1_config 7 100 5 40); reflexivity.
Defined.

Section GlobalStoreRows.

Context {libm : LibDevice}.

Lemma global_thread_store_row (cfg : launch_config) (bd : array2 f32)
    (bi : array2 N) (n_out : N) (t : thread) (s : global_store) :
  In s (global_thread_stores cfg bd bi n_out t) -> gs_row s < n_out.
Proof.
  unfold global_thread_stores. intros H.
  apply in_flat_map in H. destruct H as [i [Hi Hs]].
  apply py_range_below in Hi.
  destruct (laneid cfg t =? 0); [| destruct Hs].
  destruct Hs as [<- | []]. exact Hi.
Qed.

(** Phase 2 leaves every cell of the output arrays past their length as
    it was. *)
Lemma global_kernel_outside (cfg : launch_config) (a : global_args) (i : N) :
  len (g_out_dist a) <= i ->
  at1 (g_out_dist (_global_get_nearest_brute cfg a)) i = at1 (g_out_dist a) i /\
  at1 (g_out_idx (_global_get_nearest_brute cfg a)) i = at1 (g_out_idx a) i.
Proof.
  intros Hi. rewrite global_kernel_as_stores.
  set (ss := flat_map _ (threads cfg)).
  assert (Hrow : forall s, In s ss -> global_hits i s = false).
  { intros s Hs. unfold ss in Hs. apply in_flat_map in Hs.
    destruct Hs as [t [_ Hs]]. apply global_thread_store_row in Hs.
    unfold global_hits. apply N.eqb_neq. lia. }
  destruct (global_stores_cell i (zero, 0) ss a) as [Hd Hx].
  { intros s Hs Hh. rewrite (Hrow s Hs) in Hh. discriminate Hh. }
  assert (E : existsb (global_hits i) ss = false).
  { destruct (existsb (global_hits i) ss) eqn:E; [| reflexivity].
    apply existsb_exists in E. destruct E as [s [Hs Hh]].
    rewrite (Hrow s Hs) in Hh. discriminate Hh. }
  rewrite E in Hd, Hx. split; assumption.
Qed.

End GlobalStoreRows.

(** X8: every store of the two kernels of the driver lands inside the
    buffers the driver allocated: when it returns, the block arrays keep
    their [N_OBS x 32] shape and the output arrays their length, and
    every cell outside these extents holds what it held at allocation. *)
Theorem solve_stores_inside_buffers (libm : LibDevice) (u : uninitialised)
    (obs ref : array2 f32) :
  let m := memory (numba_cuda_solve u obs ref) in
  (shape0 (d_block_dist m) = shape0 obs /\ shape1 (d_block_dist m) = 32 /\
   shape0 (d_block_idx m) = shape0 obs /\ shape1 (d_block_idx m) = 32 /\
   len (d_out_dist m) = shape0 obs /\ len (d_out_idx m) = shape0 obs) /\
  (forall i c, ~ (i < shape0 obs /\ c < 32) ->
     at2 (d_block_dist m) i c = u_block_dist u i c /\
     at2 (d_block_idx m) i c = u_block_idx u i c) /\
  (forall i, shape0 obs <= i ->
     at1 (d_out_dist m) i = u_out_dist u i /\
     at1 (d_out_idx m) i = u_out_idx u i).
Proof.
  intros m. unfold m, numba_cuda_solve. clear m.
  destruct (numba_cuda_solve_with_run phase1_config phase2_config u obs ref)
    as [_ [_ Hm]].
  rewrite Hm. clear Hm. unfold run_kernel, fresh_memory. cbn [fst snd].
  cbn [d_ref d_obs d_block_idx d_block_dist d_out_dist d_out_idx].
  set (a := Block_args ref obs _ _).
  set (b := _block_get_nearest_brute phase1_config a).
  destruct phase1_config_shape as [Hb [Hg [Hgy Hby]]].
  assert (Hsh : shape0 (b_block_dist b) = shape0 obs /\
                shape1 (b_block_dist b) = 32 /\
                shape0 (b_block_idx b) = shape0 obs /\
                shape1 (b_block_idx b) = 32).
  { unfold b. rewrite block_kernel_as_stores. apply block_stores_shape. }
  assert (Hcells : forall i c, ~ (i < shape0 obs /\ c < 32) ->
            at2 (b_block_dist b) i c = u_block_dist u i c /\
            at2 (b_block_idx b) i c = u_block_idx u i c).
  { intros i c Hout.
    destruct (block_kernel_cells phase1_config Hb ref obs a eq_refl eq_refl
                Hgy Hby i c) as [_ H].
    apply H. exact Hout. }
  clearbody b. clear a.
  set (g := Global_args (b_block_dist b) (b_block_idx b) _ _).
  pose proof (global_stores_frame
                (flat_map (global_thread_stores phase2_config (g_block_dist g)
                             (g_block_idx g) (len (g_out_dist g)))
                          (threads phase2_config)) g) as Hfr.
  rewrite <- global_kernel_as_stores in Hfr.
  destruct Hfr as [F1 [F2 [F3 F4]]]. rewrite F1, F2, F3, F4.
  split; [| split].
  - cbn [g g_block_dist g_block_idx g_out_dist g_out_idx len]. tauto.
  - exact Hcells.
  - intros i Hi.
    apply (global_kernel_outside phase2_config g i). exact Hi.
Qed.

(* ================================================================= *)
(** ** The host solver *)

Section HostSolveProperties.

Context {hostm : HostLibm}.
Variables a b : array2 f32.

(** The inner loop after [n] reference points: the running minimum is a
    number not above the seed nor above any distance seen, and it is the
    seed with index 0 or the distance of the first point that attains
    it. *)
Lemma cpu_scan_prefix (obs_idx n : N) :
  let p := fold_left (cpu_scan_body a b obs_idx) (iota n) (f64_1e11, 0) in
  is_nan (fst p) = false /\ le (fst p) f64_1e11 /\
  (forall j, j < n -> le (fst p) (temp_dist a b obs_idx j)) /\
  (p = (f64_1e11, 0) \/
   (snd p < n /\ fst p = temp_dist a b obs_idx (snd p) /\
    forall j, j < snd p -> is_nan (temp_dist a b obs_idx j) = false ->
              lt (fst p) (temp_dist a b obs_idx j) = true)).
Proof.
  induction n as [| n IH] using N.peano_ind.
  - simpl. split; [reflexivity |]. split; [apply lt_irrefl |].
    split; [intros j Hj; lia | left; reflexivity].
  - replace (N.succ n) with (n + 1) by lia.
    rewrite iota_succ, fold_left_app.
    destruct (fold_left (cpu_scan_body a b obs_idx) (iota n) (f64_1e11, 0))
      as [v k] eqn:Ep.
    cbn [fst snd] in IH. destruct IH as [Hn [Hle [Hall Hsel]]].
    cbn [fold_left cpu_scan_body].
    destruct (lt (temp_dist a b obs_idx n) v) eqn:E; cbn [fst snd].
    + destruct (lt_not_nan _ _ E) as [Hnn _].
      split; [exact Hnn |]. split; [| split].
      * apply (le_trans _ v); [exact Hn | apply lt_asym, E | exact Hle].
      * intros j Hj. destruct (N.eq_dec j n) as [-> | Hne].
        -- apply lt_irrefl.
        -- apply (le_trans _ v); [exact Hn | apply lt_asym, E |].
           apply Hall. lia.
      * right. split; [lia |]. split; [reflexivity |].
        intros j Hj Hnj.
        apply (lt_le_trans _ v); [exact Hnj | exact E | apply Hall, Hj].
    + split; [exact Hn |]. split; [exact Hle |]. split.
      * intros j Hj. destruct (N.eq_dec j n) as [-> | Hne].
        -- exact E.
        -- apply Hall. lia.
      * destruct Hsel as [Hs | [Hk Hrest]]; [left; exact Hs | right].
        split; [lia | exact Hrest].
Qed.

(** What the outer loop leaves in a cell: the row's result where the
    loop passed, the old content elsewhere. *)
Lemma cpu_solve_rows_cell (i : N) (js : list N) :
  forall out,
  at1 (fst (fold_left (cpu_solve_row a b) js out)) i =
    (if existsb (N.eqb i) js then to_uint32 (snd (cpu_scan a b i))
     else at1 (fst out) i) /\
  at1 (snd (fold_left (cpu_solve_row a b) js out)) i =
    (if existsb (N.eqb i) js then to_f32 (fst (cpu_scan a b i))
     else at1 (snd out) i) /\
  len (fst (fold_left (cpu_solve_row a b) js out)) = len (fst out) /\
  len (snd (fold_left (cpu_solve_row a b) js out)) = len (snd out).
Proof.
  induction js as [| j js IH]; intros out.
  - simpl. repeat split; reflexivity.
  - cbn [fold_left existsb].
    destruct (IH (cpu_solve_row a b out j)) as [Hi [Hd [Hl1 Hl2]]].
    rewrite Hi, Hd, Hl1, Hl2. clear Hi Hd Hl1 Hl2 IH.
    unfold cpu_solve_row. cbn [fst snd set1 at1 len].
    destruct (existsb (N.eqb i) js).
    + rewrite orb_true_r. repeat split; reflexivity.
    + rewrite orb_false_r. destruct (i =? j) eqn:E.
      * apply N.eqb_eq in E. subst j. repeat split; reflexivity.
      * repeat split; reflexivity.
Qed.

Lemma numba_cpu_solve_cell (e_idx : N -> N) (e_dist : N -> f32) (i : N) :
  i < shape0 a ->
  at1 (fst (numba_cpu_solve e_idx e_dist a b)) i =
    to_uint32 (snd (cpu_scan a b i)) /\
  at1 (snd (numba_cpu_solve e_idx e_dist a b)) i =
    to_f32 (fst (cpu_scan a b i)).
Proof.
  intros Hi. unfold numba_cpu_solve.
  destruct (cpu_solve_rows_cell i (iota (shape0 a))
              (Array1 (shape0 a) e_idx, Array1 (shape0 a) e_dist))
    as [Hx [Hd _]].
  assert (E : existsb (N.eqb i) (iota (shape0 a)) = true).
  { apply existsb_exists. exists i. split; [apply iota_In, Hi | apply N.eqb_refl]. }
  rewrite E in Hx, Hd. split; assumption.
Qed.

End HostSolveProperties.

(** X9: for every observation, [numba_cpu_solve] stores the
    single-precision rounding of a double-precision distance [d] that no
    computed distance to a reference point is below; [d] is the seed
    [1e11] with index 0, or the computed distance of the reference point
    whose index (modulo [2^32]) is stored, and that point is the first
    one at this distance: every earlier point with a number as distance
    is strictly farther. *)
Theorem numba_cpu_solve_first_minimum (hostm : HostLibm)
    (e_idx : N -> N) (e_dist : N -> f32) (a b : array2 f32) (i : N) :
  i < shape0 a ->
  exists d : f64,
    at1 (snd (numba_cpu_solve e_idx e_dist a b)) i = to_f32 d /\
    is_nan d = false /\
    (forall j, j < shape0 b -> le d (temp_dist a b i j)) /\
    ((d = f64_1e11 /\ at1 (fst (numba_cpu_solve e_idx e_dist a b)) i = 0) \/
     exists j, j < shape0 b /\ d = temp_dist a b i j /\
       at1 (fst (numba_cpu_solve e_idx e_dist a b)) i = to_uint32 j /\
       forall j', j' < j -> is_nan (temp_dist a b i j') = false ->
                  lt d (temp_dist a b i j') = true).
Proof.
  intros Hi.
  destruct (numba_cpu_solve_cell a b e_idx e_dist i Hi) as [Hx Hd].
  destruct (cpu_scan_prefix a b i (shape0 b)) as [Hn [_ [Hall Hsel]]].
  fold (cpu_scan a b i) in Hn, Hall, Hsel.
  exists (fst (cpu_scan a b i)).
  split; [exact Hd |]. split; [exact Hn |]. split; [exact Hall |].
  rewrite Hx.
  destruct Hsel as [E | [Hk [Hv Hfirst]]].
  - left. rewrite E. split; reflexivity.
  - right. exists (snd (cpu_scan a b i)).
    split; [exact Hk |]. split; [exact Hv |]. split; [reflexivity | exact Hfirst].
Qed.

Lemma numba_cpu_solve_first_minimum_witness :
  exists d : f64,
    at1 (snd (@numba_cpu_solve host_taylor0 (fun _ => 7) (fun _ => one)
                origin three_points)) 0 = to_f32 d /\
    is_nan d = false /\
    (forall j, j < shape0 three_points ->
       le d (@temp_dist host_taylor0 origin three_points 0 j)) /\
    ((d = f64_1e11 /\
      at1 (fst (@numba_cpu_solve host_taylor0 (fun _ => 7) (fun _ => one)
                  origin three_points)) 0 = 0) \/
     exists j, j < shape0 three_points /\
       d = @temp_dist host_taylor0 origin three_points 0 j /\
       at1 (fst (@numba_cpu_solve host_taylor0 (fun _ => 7) (fun _ => one)
                   origin three_points)) 0 = to_uint32 j /\
       forall j', j' < j ->
         is_nan (@temp_dist host_taylor0 origin three_points 0 j') = false ->
         lt d (@temp_dist host_taylor0 origin three_points 0 j') = true).
Proof.
  apply (numba_cpu_solve_first_minimum host_taylor0 (fun _ => 7) (fun _ => one)
           origin three_points 0).
  reflexivity.
Defined.

(** X10: with an empty reference set [numba_cpu_solve] returns, for every
    observation, index 0 and the single-precision value of [1e11] -- the
    pair the GPU driver returns in that case. *)
Theorem numba_cpu_solve_empty_reference_set (hostm : HostLibm)
    (e_idx : N -> N) (e_dist : N -> f32) (a b : array2 f32) (i : N) :
  shape0 b = 0 -> i < shape0 a ->
  at1 (fst (numba_cpu_solve e_idx e_dist a b)) i = 0 /\
  at1 (snd (numba_cpu_solve e_idx e_dist a b)) i = seed_1e11.
Proof.
  intros Hb Hi.
  destruct (numba_cpu_solve_cell a b e_idx e_dist i Hi) as [Hx Hd].
  rewrite Hx, Hd. unfold cpu_scan. rewrite Hb. split; reflexivity.
Qed.

Lemma numba_cpu_solve_empty_reference_set_witness :
  at1 (fst (@numba_cpu_solve host_taylor0 (fun _ => 7) (fun _ => one)
              origin no_points)) 0 = 0 /\
  at1 (snd (@numba_cpu_solve host_taylor0 (fun _ => 7) (fun _ => one)
              origin no_points)) 0 = seed_1e11.
Proof.
  apply (numba_cpu_solve_empty_reference_set host_taylor0 (fun _ => 7)
           (fun _ => one) origin no_points 0); reflexivity.
Defined.

(* ================================================================= *)
(** ** The pairwise distance kernels *)

Lemma fold_left_guarded {S X : Type} (app : S -> X -> S) (g : X -> bool)
    (xs : list X) :
  forall s,
  fold_left (fun s x => if g x then app s x else s) xs s =
  fold_left app (filter g xs) s.
Proof.
  induction xs as [| x xs IH]; simpl; intros s; [reflexivity |].
  destruct (g x); simpl; apply IH.
Qed.

(** The threads of a grid sit on the points below its two extents. *)
Lemma grid_thread_at (cfg : launch_config) (r c : N) :
  (exists t, in_grid cfg t /\ grid_x cfg t = r /\ grid_y cfg t = c) <->
  r < gridsize_x cfg /\ c < gridsize_y cfg.
Proof.
  unfold in_grid, grid_x, grid_y, gridsize_x, gridsize_y. split.
  - intros [t [[H1 [H2 [H3 H4]]] [<- <-]]]. split; nia.
  - intros [Hr Hc].
    assert (Hbx : 0 < blockDim_x cfg) by nia.
    assert (Hby : 0 < blockDim_y cfg) by nia.
    exists (Thread (r / blockDim_x cfg) (c / blockDim_y cfg)
                   (r mod blockDim_x cfg) (c mod blockDim_y cfg)).
    cbn [blockIdx_x blockIdx_y threadIdx_x threadIdx_y].
    split; [| split].
    + split; [apply N.Div0.div_lt_upper_bound, Hr |].
      split; [apply N.Div0.div_lt_upper_bound, Hc |].
      split; apply N.mod_lt; lia.
    + pose proof (N.div_mod r (blockDim_x cfg)). lia.
    + pose proof (N.div_mod c (blockDim_y cfg)). lia.
Qed.

Section DistanceKernels.

Variable T : Type.
Variable zero : T.
Variables dsub dadd : T -> T -> T.
Variables pow2 pow_half : T -> T.
Variable data : array2 T.

(** The distance between rows [r] and [c] of [data]. *)
Lemma distance_matrix_cuda_as_stores (cfg : launch_config) (dm : array2 T) :
  distance_matrix_cuda dsub dadd pow2 pow_half cfg data dm =
  fold_left
    (fun C t => set2 C (grid_x cfg t) (grid_y cfg t)
                  (euclid dsub dadd pow2 pow_half
                     (at2 data (grid_x cfg t) 0) (at2 data (grid_x cfg t) 1)
                     (at2 data (grid_y cfg t) 0) (at2 data (grid_y cfg t) 1)))
    (filter (fun t => negb ((shape0 data <? grid_x cfg t) ||
                            (shape0 data <? grid_y cfg t)))
            (threads cfg))
    dm.
Proof.
  clear zero. unfold distance_matrix_cuda.
  rewrite <- (fold_left_guarded
                (fun C t => set2 C (grid_x cfg t) (grid_y cfg t) _)).
  apply fold_left_ext_in. intros C t _.
  unfold distance_matrix_cuda_thread.
  destruct ((shape0 data <? grid_x cfg t) || (shape0 data <? grid_y cfg t));
    reflexivity.
Qed.

Lemma distance_matrix_cuda_cell (cfg : launch_config) (dm : array2 T) (r c : N) :
  at2 (distance_matrix_cuda dsub dadd pow2 pow_half cfg data dm) r c =
  if (r <? gridsize_x cfg) && (c <? gridsize_y cfg) &&
     (r <=? shape0 data) && (c <=? shape0 data)
  then euclid dsub dadd pow2 pow_half
         (at2 data r 0) (at2 data r 1) (at2 data c 0) (at2 data c 1)
  else at2 dm r c.
Proof.
  clear zero. rewrite distance_matrix_cuda_as_stores.
  rewrite (fold_set2_cell T thread (grid_x cfg) (grid_y cfg) _ r c
             (euclid dsub dadd pow2 pow_half
                (at2 data r 0) (at2 data r 1) (at2 data c 0) (at2 data c 1)))
    by (intros x _ Ex Ey; rewrite Ex, Ey; reflexivity).
  match goal with
  | |- (if ?e then _ else _) = (if ?e' then _ else _) =>
      assert (He : e = e'); [| rewrite He; reflexivity]
  end.
  apply eq_true_iff_eq. rewrite existsb_exists, !andb_true_iff.
  rewrite !N.ltb_lt, !N.leb_le. split.
  - intros [t [Hin Hh]]. apply filter_In in Hin. destruct Hin as [Hin Hg].
    apply threads_In in Hin. apply andb_true_iff in Hh. destruct Hh as [Ex Ey].
    apply N.eqb_eq in Ex, Ey. apply negb_true_iff, orb_false_iff in Hg.
    destruct Hg as [G1 G2]. apply N.ltb_ge in G1, G2.
    destruct (proj1 (grid_thread_at cfg r c)) as [Hr Hc].
    { exists t. split; [exact Hin | split; congruence]. }
    subst r c. tauto.
  - intros [[[Hr Hc] Hrn] Hcn].
    destruct (proj2 (grid_thread_at cfg r c) (conj Hr Hc)) as [t [Ht [Ex Ey]]].
    exists t. split.
    + apply filter_In. split; [apply threads_In, Ht |].
      rewrite Ex, Ey. apply negb_true_iff, orb_false_iff.
      split; apply N.ltb_ge; assumption.
    + rewrite Ex, Ey, !N.eqb_refl. reflexivity.
Qed.

Lemma distance_matrix_cuda_optimized_launch_cell (sh : N -> T) (r c : N) :
  at2 (distance_matrix_cuda_optimized_launch zero dsub dadd pow2 pow_half sh data)
      r c =
  if (r <? shape0 data) && (c <? shape0 data)
  then euclid dsub dadd pow2 pow_half
         (at2 data r 0) (at2 data r 1) (at2 data c 0) (at2 data c 1)
  else zero.
Proof.
  unfold distance_matrix_cuda_optimized_launch, distance_matrix_cuda_optimized.
  set (cfg := Launch_config (shape0 data) 1 (shape0 data) 1).
  rewrite (fold_left_ext_in _
             (fun C t => set2 C (blockIdx_x t) (threadIdx_x t)
                (euclid dsub dadd pow2 pow_half
                   (at2 data (blockIdx_x t) 0) (at2 data (blockIdx_x t) 1)
                   (at2 data (threadIdx_x t) 0) (at2 data (threadIdx_x t) 1)))).
  2:{ intros C t Ht. apply threads_In in Ht.
      destruct Ht as [H1 [_ [H3 _]]]. cbn [cfg gridDim_x blockDim_x] in H1, H3.
      unfold distance_matrix_cuda_optimized_thread.
      apply N.ltb_lt in H1, H3. rewrite H1, H3. reflexivity. }
  rewrite (fold_set2_cell T thread blockIdx_x threadIdx_x _ r c
             (euclid dsub dadd pow2 pow_half
                (at2 data r 0) (at2 data r 1) (at2 data c 0) (at2 data c 1)))
    by (intros x _ Ex Ey; rewrite Ex, Ey; reflexivity).
  cbn [at2].
  match goal with
  | |- (if ?e then _ else _) = (if ?e' then _ else _) =>
      assert (He : e = e'); [| rewrite He; reflexivity]
  end.
  apply eq_true_iff_eq. rewrite existsb_exists, !andb_true_iff, !N.ltb_lt. split.
  - intros [t [Hin Hh]]. apply threads_In in Hin.
    destruct Hin as [H1 [_ [H3 _]]]. cbn [cfg gridDim_x blockDim_x] in H1, H3.
    apply andb_true_iff in Hh. destruct Hh as [Ex Ey].
    apply N.eqb_eq in Ex, Ey. subst r c. tauto.
  - intros [Hr Hc]. exists (Thread r 0 c 0). split.
    + apply threads_In. unfold in_grid. cbn. lia.
    + cbn. rewrite !N.eqb_refl. reflexivity.
Qed.

End DistanceKernels.

(** X11: under any launch whose grid does not reach past the data in
    either direction, on points of two coordinates and a matrix of
    [len(data)] rows and columns, [distance_matrix_cuda] stores the
    distance between rows [r] and [c] of [data] in cell [(r, c)] exactly
    when the grid reaches [(r, c)], and leaves every other cell alone. *)
Theorem distance_matrix_cuda_stores (T : Type) (dsub dadd : T -> T -> T)
    (pow2 pow_half : T -> T) (cfg : launch_config) (data dm : array2 T)
    (r c : N) :
  gridsize_x cfg <= shape0 data -> gridsize_y cfg <= shape0 data ->
  2 <= shape1 data ->
  shape0 dm = shape0 data -> shape1 dm = shape0 data ->
  at2 (distance_matrix_cuda dsub dadd pow2 pow_half cfg data dm) r c =
  if (r <? gridsize_x cfg) && (c <? gridsize_y cfg)
  then euclid dsub dadd pow2 pow_half
         (at2 data r 0) (at2 data r 1) (at2 data c 0) (at2 data c 1)
  else at2 dm r c.
Proof.
  intros Hx Hy _ _ _.
  rewrite (distance_matrix_cuda_cell T dsub dadd pow2 pow_half data cfg dm r c).
  destruct (r <? gridsize_x cfg) eqn:Er; destruct (c <? gridsize_y cfg) eqn:Ec;
    cbn [andb]; try reflexivity.
  apply N.ltb_lt in Er, Ec.
  assert (H1 : (r <=? shape0 data) = true) by (apply N.leb_le; lia).
  assert (H2 : (c <=? shape0 data) = true) by (apply N.leb_le; lia).
  rewrite H1, H2. reflexivity.
Qed.

Lemma distance_matrix_cuda_stores_witness :
  at2 (distance_matrix_cuda (SFsub 53 1024) f64_add (fun x => f64_mul x x)
         (SFsqrt 53 1024) (Launch_config 2 3 1 1) three_points
         (np_zeros f64_zero 3 3)) 1 2 =
  if (1 <? gridsize_x (Launch_config 2 3 1 1)) &&
     (2 <? gridsize_y (Launch_config 2 3 1 1))
  then euclid (SFsub 53 1024) f64_add (fun x => f64_mul x x) (SFsqrt 53 1024)
         (at2 three_points 1 0) (at2 three_points 1 1)
         (at2 three_points 2 0) (at2 three_points 2 1)
  else at2 (np_zeros f64_zero 3 3) 1 2.
Proof.
  apply (distance_matrix_cuda_stores f64 (SFsub 53 1024) f64_add
           (fun x => f64_mul x x) (SFsqrt 53 1024) (Launch_config 2 3 1 1)
           three_points (np_zeros f64_zero 3 3) 1 2);
    vm_compute; (reflexivity || discriminate).
Defined.

(** X12: launched as in the notebook, on an [n x n] grid of one-thread
    blocks and a zeroed [n x n] matrix, [distance_matrix_cuda] fills
    every cell of the matrix with the distance between the two rows of
    [data] and stores nowhere else. *)
Theorem distance_matrix_cuda_launch_correct (T : Type) (zero : T)
    (dsub dadd : T -> T -> T) (pow2 pow_half : T -> T) (data : array2 T)
    (r c : N) :
  at2 (distance_matrix_cuda_launch zero dsub dadd pow2 pow_half data) r c =
  if (r <? shape0 data) && (c <? shape0 data)
  then euclid dsub dadd pow2 pow_half
         (at2 data r 0) (at2 data r 1) (at2 data c 0) (at2 data c 1)
  else zero.
Proof.
  unfold distance_matrix_cuda_launch. rewrite distance_matrix_cuda_cell.
  unfold gridsize_x, gridsize_y. cbn [gridDim_x gridDim_y blockDim_x blockDim_y at2].
  rewrite !N.mul_1_l.
  destruct (r <? shape0 data) eqn:Er; destruct (c <? shape0 data) eqn:Ec;
    cbn [andb]; try reflexivity.
  apply N.ltb_lt in Er, Ec.
  assert (H1 : (r <=? shape0 data) = true) by (apply N.leb_le; lia).
  assert (H2 : (c <=? shape0 data) = true) by (apply N.leb_le; lia).
  rewrite H1, H2. reflexivity.
Qed.

(** X13: launched as in the notebook, with [n] blocks of [n] threads
    ([n] within the limit of 1024 threads of a block), the kernel with
    the shared [current_point] computes cell by cell the matrix of the
    simple kernel, whatever the shared array held: each block rebinds
    [current_point] to its row of [data] and never reads shared
    memory. *)
Theorem distance_matrix_cuda_optimized_agrees (T : Type) (zero : T)
    (dsub dadd : T -> T -> T) (pow2 pow_half : T -> T) (sh : N -> T)
    (data : array2 T) (r c : N) :
  shape0 data <= MAX_THREADS_PER_BLOCK ->
  at2 (distance_matrix_cuda_optimized_launch zero dsub dadd pow2 pow_half sh data)
      r c =
  at2 (distance_matrix_cuda_launch zero dsub dadd pow2 pow_half data) r c.
Proof.
  intros _. rewrite distance_matrix_cuda_optimized_launch_cell.
  unfold distance_matrix_cuda_launch. rewrite distance_matrix_cuda_cell.
  unfold gridsize_x, gridsize_y. cbn [gridDim_x gridDim_y blockDim_x blockDim_y at2].
  rewrite !N.mul_1_l.
  destruct (r <? shape0 data) eqn:Er; destruct (c <? shape0 data) eqn:Ec;
    cbn [andb]; try reflexivity.
  apply N.ltb_lt in Er, Ec.
  assert (H1 : (r <=? shape0 data) = true) by (apply N.leb_le; lia).
  assert (H2 : (c <=? shape0 data) = true) by (apply N.leb_le; lia).
  rewrite H1, H2. reflexivity.
Qed.

Lemma distance_matrix_cuda_optimized_agrees_witness :
  at2 (distance_matrix_cuda_optimized_launch f64_zero (SFsub 53 1024) f64_add
         (fun x => f64_mul x x) (SFsqrt 53 1024) (fun _ => f64_one)
         three_points) 0 1 =
  at2 (distance_matrix_cuda_launch f64_zero (SFsub 53 1024) f64_add
         (fun x => f64_mul x x) (SFsqrt 53 1024) three_points) 0 1.
Proof.
  apply (distance_matrix_cuda_optimized_agrees f64 f64_zero (SFsub 53 1024)
           f64_add (fun x => f64_mul x x) (SFsqrt 53 1024) (fun _ => f64_one)
           three_points 0 1).
  vm_compute. discriminate.
Defined.

(* ================================================================= *)
(** ** The loops of the vectorization notebook *)

(** Reading a list cell by cell over [range(len(X))] gives the list. *)
Lemma map_nth_range {A : Type} (l : list A) (d : A) :
  map (fun i => nth i l d) (seq 0 (length l)) = l.
Proof.
  apply (nth_ext _ _ d d).
  - rewrite length_map, length_seq. reflexivity.
  - intros n Hn. rewrite length_map, length_seq in Hn.
    rewrite (nth_indep _ d (nth 0 l d))
      by (rewrite length_map, length_seq; exact Hn).
    rewrite (map_nth (fun i => nth i l d) (seq 0 (length l)) 0%nat n).
    rewrite seq_nth by exact Hn. reflexivity.
Qed.

Lemma count_loop (k : Z) (X : list Z) :
  forall count,
  fold_left (fun count x => if (x <? k)%Z then (count + 1)%Z else count) X count =
  (count + Z.of_nat (length (filter (fun b : bool => b)
                                    (map (fun x => (x <? k)%Z) X))))%Z.
Proof.
  induction X as [| x X IH]; intros count; simpl.
  - lia.
  - rewrite IH. destruct (x <? k)%Z; simpl; lia.
Qed.

(** X14: for every array [X] and threshold [k], the counting loop of
    [lessthank_forloop] prints and returns what
    [np.count_nonzero(X < k)] gives in [lessthank_vectorize]. *)
Theorem lessthank_forloop_is_vectorize (X : list Z) (k : Z) :
  lessthank_forloop X k = lessthank_vectorize X k.
Proof.
  unfold lessthank_forloop, lessthank_vectorize.
  rewrite <- (fold_left_map
                (fun count x => if (x <? k)%Z then (count + 1)%Z else count)
                (fun i => nth i X 0%Z)).
  rewrite map_nth_range, count_loop. reflexivity.
Qed.

(** X15: on [X = np.arange(n)] both functions return [k] clamped to
    [0 .. n]. *)
Theorem lessthank_arange (n : nat) (k : Z) :
  lessthank_forloop (np_arange n) k =
    (Z.max 0 (Z.min k (Z.of_nat n)), Z.max 0 (Z.min k (Z.of_nat n))) /\
  lessthank_vectorize (np_arange n) k =
    (Z.max 0 (Z.min k (Z.of_nat n)), Z.max 0 (Z.min k (Z.of_nat n))).
Proof.
  assert (H : Z.of_nat (length (filter (fun b : bool => b)
                (map (fun x => (x <? k)%Z) (np_arange n)))) =
              Z.max 0 (Z.min k (Z.of_nat n))).
  { unfold np_arange. induction n as [| n IH].
    - simpl. lia.
    - rewrite seq_S, !map_app, filter_app, length_app, Nat2Z.inj_add, IH.
      cbn [map filter Nat.add].
      destruct (Z.of_nat n <? k)%Z eqn:E; cbn [length].
      + apply Z.ltb_lt in E. lia.
      + apply Z.ltb_ge in E. lia. }
  unfold lessthank_forloop, lessthank_vectorize.
  rewrite <- (fold_left_map
                (fun count x => if (x <? k)%Z then (count + 1)%Z else count)
                (fun i => nth i (np_arange n) 0%Z)).
  rewrite map_nth_range, count_loop, H. split; reflexivity.
Qed.

(** The loop of [dotproduct_forloop] over the first [n] indices goes
    through exactly when both vectors have that many elements. *)
Lemma dotproduct_prefix (vector1 vector2 : list Z) (n : nat) :
  (exists d, fold_left (dotproduct_step vector1 vector2) (seq 0 n)
                       (Some f64_zero) = Some d) <->
  (n <= length vector1 /\ n <= length vector2)%nat.
Proof.
  induction n as [| n IH].
  - simpl. split; [intros _; lia | intros _; eexists; reflexivity].
  - rewrite seq_S, fold_left_app. cbn [fold_left Nat.add].
    destruct (fold_left (dotproduct_step vector1 vector2) (seq 0 n)
                        (Some f64_zero)) as [d |] eqn:E.
    + assert (Hn : (n <= length vector1 /\ n <= length vector2)%nat)
        by (apply IH; eexists; reflexivity).
      unfold dotproduct_step.
      destruct (nth_error vector1 n) as [x |] eqn:E1;
        destruct (nth_error vector2 n) as [y |] eqn:E2.
      * assert (n < length vector1)%nat
          by (apply nth_error_Some; rewrite E1; discriminate).
        assert (n < length vector2)%nat
          by (apply nth_error_Some; rewrite E2; discriminate).
        split; [intros _; lia | intros _; eexists; reflexivity].
      * apply nth_error_None in E2.
        split; [intros [d' H]; discriminate H | intros H; lia].
      * apply nth_error_None in E1.
        split; [intros [d' H]; discriminate H | intros H; lia].
      * apply nth_error_None in E1.
        split; [intros [d' H]; discriminate H | intros H; lia].
    + cbn [dotproduct_step].
      split; [intros [d' H]; discriminate H |].
      intros H. exfalso.
      assert (Hn : (n <= length vector1 /\ n <= length vector2)%nat) by lia.
      apply IH in Hn. destruct Hn as [d' Hd]. discriminate Hd.
Qed.

(** X16: [dotproduct_forloop] returns a value exactly when [length] is
    at most the length of both vectors (a negative [length] gives the
    empty loop and [0.0]); with a larger [length] it stops on an
    [IndexError]. *)
Theorem dotproduct_forloop_index_error (vector1 vector2 : list Z) (len : Z) :
  dotproduct_forloop vector1 vector2 len = None <->
  (Z.of_nat (length vector1) < len \/ Z.of_nat (length vector2) < len)%Z.
Proof.
  unfold dotproduct_forloop.
  pose proof (dotproduct_prefix vector1 vector2 (Z.to_nat len)) as H.
  destruct (fold_left (dotproduct_step vector1 vector2)
                      (seq 0 (Z.to_nat len)) (Some f64_zero)) as [d |].
  - assert (Hn : (Z.to_nat len <= length vector1 /\
                  Z.to_nat len <= length vector2)%nat)
      by (apply H; eexists; reflexivity).
    split; [intros E; discriminate E | intros E; lia].
  - split; [intros _ | reflexivity].
    destruct (Z_lt_dec (Z.of_nat (length vector1)) len) as [H1 | H1];
      [left; exact H1 |].
    destruct (Z_lt_dec (Z.of_nat (length vector2)) len) as [H2 | H2];
      [right; exact H2 |].
    exfalso.
    assert (Hn : (Z.to_nat len <= length vector1 /\
                  Z.to_nat len <= length vector2)%nat) by lia.
    apply H in Hn. destruct Hn as [d Hd]. discriminate Hd.
Qed.

(* ================================================================= *)
(** ** Matrix products of other shapes *)






(** On the 16 x 17 and 17 x 16 matrices of ones the product holds 17 in
    every cell; [matmul] returns it and [fast_matmul] returns 16. *)
Example fast_matmul_17_columns :
  (exists C, matmul_launch f64_zero f64_add f64_mul ones_16x17 ones_17x16
               = Returned C /\
             at2 C 0 0 = S754_finite false 4785074604081152 (-48)) /\
  (exists C, fast_matmul_launch f64_zero f64_add f64_mul (fun _ _ => f64_zero)
               ones_16x17 ones_17x16 = Returned C /\
             at2 C 0 0 = S754_finite false 4503599627370496 (-48)).
Proof.
  split; (eexists; split; [vm_compute; reflexivity | vm_compute; reflexivity]).
Qed.

(** Three elements against two: the loop over two indices returns
    [4 + 10], the loop over three stops on the missing element. *)
Example dotproduct_short_vector :
  dotproduct_forloop vector_123 vector_45 2 =
    Some (S754_finite false 7881299347898368 (-49)) /\
  dotproduct_forloop vector_123 vector_45 3 = None.
Proof. vm_compute. split; reflexivity. Qed.
